(** * CreateVTUViewer: decoding, tessellation, colour map and threshold filter

    A shallow embedding of [src/CreateVTUViewer.jsx]: the functions
    [getAllScalarFields], [extractPoints], [extractCells], [extractScalars],
    [applyColorMap], the synchronous part of [addVTUToScene] and
    [enableThreshold], followed by the properties proved about them.

    Conventions of the embedding.
    - A JavaScript Number is an exact rational, kept in lowest terms, or one
      of NaN, +Infinity, -Infinity.  Rounding to binary64 (and to binary32
      when a value is stored in a [Float32Array]), overflow and the sign of
      zero are not modelled.
    - A JavaScript value that may be [undefined] is an [option]; reading an
      array out of range gives [undefined].
    - Text is ASCII; the white space of the regular expression [\s] is
      tab, line feed, vertical tab, form feed, carriage return and space.
    - The parsed XML document is the list of its elements in document
      order, each with the tag names of its ancestors, which is what the
      descendant selectors of the source look at.
    - The rendering objects (renderer, render window, actor) carry no data
      the functions below compute with; the mapper is kept, since
      [enableThreshold] reads and replaces its input.  A [vtkPolyData], a
      [vtkDataArray] and a [vtkMapper] are records of what the source puts
      into them and reads back.
    - Left out: reading and parsing the file ([parseVTUFile]), the calls that
      only draw, [setRepresentation], [dispose], and the limits an engine
      puts on the number of arguments of one call.
    - Also outside the embedding: the limit an engine puts on the size of an
      array (where the source ends in a RangeError because the cell buffer
      outgrows it, the embedding goes on), and a field name that the
      selector of [extractScalars] does not take literally, one with a
      quote, a backslash, a line break or a NUL (the source then looks for
      another name, for other elements, or ends in a SyntaxError).  The
      statements about the lookup of a field by its name are made for the
      names that [plainName] accepts. *)

From Stdlib Require Import ZArith QArith Qround String Ascii List Bool Lia Lqa.
Import ListNotations.

Local Open Scope string_scope.
Local Open Scope Z_scope.

(** ** Outcomes of a call *)

Inductive Exception : Type :=
  | Error (message : string)
  | TypeError.

(** A call returns a value, throws, or does not come back: the fan loop of
    [extractCells] has no end when its bound is +Infinity, and pushes onto
    the buffer until the engine gives up. *)
Inductive Outcome (A : Type) : Type :=
  | Returns (a : A)
  | Throws (e : Exception)
  | Diverges.

Arguments Returns {A} a.
Arguments Throws {A} e.
Arguments Diverges {A}.

Definition bind {A B : Type} (m : Outcome A) (k : A -> Outcome B) : Outcome B :=
  match m with
  | Returns a => k a
  | Throws e => Throws e
  | Diverges => Diverges
  end.

Notation "x <- m ;; k" := (bind m (fun x => k))
  (at level 61, m at next level, right associativity).

(** ** Numbers *)

Module Js.

Inductive number : Type :=
  | NaN
  | Infinity
  | NegInfinity
  | Fin (q : Q).

Definition Value : Type := option number.
Definition undefined : Value := None.

Definition ofZ (z : Z) : number := Fin (inject_Z z).

(** A decimal literal of the source. *)
Definition lit (q : Q) : number := Fin (Qred q).

Definition ToNumber (v : Value) : number :=
  match v with
  | Some n => n
  | None => NaN
  end.

Definition isZero (q : Q) : bool := Qnum q =? 0.
Definition isNeg (q : Q) : bool := Qnum q <? 0.

Definition neg (a : number) : number :=
  match a with
  | NaN => NaN
  | Infinity => NegInfinity
  | NegInfinity => Infinity
  | Fin q => Fin (- q)
  end.

Definition add (a b : number) : number :=
  match a, b with
  | NaN, _ | _, NaN => NaN
  | Infinity, NegInfinity | NegInfinity, Infinity => NaN
  | Infinity, _ | _, Infinity => Infinity
  | NegInfinity, _ | _, NegInfinity => NegInfinity
  | Fin p, Fin q => Fin (Qred (p + q))
  end.

Definition sub (a b : number) : number := add a (neg b).

Definition mulInf (positive : bool) (q : Q) : number :=
  if isZero q then NaN
  else if Bool.eqb positive (isNeg q) then NegInfinity else Infinity.

Definition mul (a b : number) : number :=
  match a, b with
  | NaN, _ | _, NaN => NaN
  | Infinity, Infinity | NegInfinity, NegInfinity => Infinity
  | Infinity, NegInfinity | NegInfinity, Infinity => NegInfinity
  | Infinity, Fin q | Fin q, Infinity => mulInf true q
  | NegInfinity, Fin q | Fin q, NegInfinity => mulInf false q
  | Fin p, Fin q => Fin (Qred (p * q))
  end.

(** The order of two numbers; [None] when one of them is NaN, and then
    every one of [<], [>], [<=], [>=] is false. *)
Definition compare (a b : number) : option comparison :=
  match a, b with
  | NaN, _ | _, NaN => None
  | Infinity, Infinity | NegInfinity, NegInfinity => Some Eq
  | Infinity, _ | _, NegInfinity => Some Gt
  | _, Infinity | NegInfinity, _ => Some Lt
  | Fin p, Fin q => Some (p ?= q)%Q
  end.

Definition lt (a b : number) : bool :=
  match compare a b with Some Lt => true | _ => false end.
Definition gt (a b : number) : bool := lt b a.
Definition ge (a b : number) : bool :=
  match compare a b with Some Gt | Some Eq => true | _ => false end.
(** [a === b] on numbers. *)
Definition strictEq (a b : number) : bool :=
  match compare a b with Some Eq => true | _ => false end.

(** Truthiness of a value that is a number or [undefined]. *)
Definition truthy (v : Value) : bool :=
  match v with
  | None | Some NaN => false
  | Some (Fin q) => negb (isZero q)
  | Some _ => true
  end.

(** The integer part, towards zero. *)
Definition truncate (q : Q) : Z := Z.quot (Qnum q) (Zpos (Qden q)).

(** [ToUint32]: NaN and the infinities give 0, a finite number is
    truncated and reduced modulo 2^32. *)
Definition ToUint32 (a : number) : Z :=
  match a with
  | Fin q => truncate q mod 2 ^ 32
  | _ => 0
  end.

(** [Math.min(...xs)] and [Math.max(...xs)]: the neutral element on no
    argument, NaN as soon as one argument is NaN. *)
Definition min2 (a b : number) : number :=
  match compare a b with
  | None => NaN
  | Some Gt => b
  | _ => a
  end.

Definition max2 (a b : number) : number :=
  match compare a b with
  | None => NaN
  | Some Lt => b
  | _ => a
  end.

Definition Math_min (xs : list number) : number := fold_left min2 xs Infinity.
Definition Math_max (xs : list number) : number := fold_left max2 xs NegInfinity.

(** How many of j = 0, 1, 2, ... satisfy [j < bound], for a loop
    [for (let j = 0; j < bound; j++)]; [None] when the loop has no end. *)
Definition forCount (bound : number) : option nat :=
  match bound with
  | NaN | NegInfinity => Some 0%nat
  | Infinity => None
  | Fin q => Some (Z.to_nat (Qceiling q))
  end.

(** Typed arrays, by their contents. *)
Definition Float32Array : Type := list number.
Definition Uint32Array : Type := list Z.

(** [new Uint32Array(array)]: every element goes through [ToNumber] and
    [ToUint32]. *)
Definition newUint32Array (array : list Value) : Uint32Array :=
  map (fun v => ToUint32 (ToNumber v)) array.

(** *** Text to numbers: [trim], [split(/\s+/)] and [Number] *)

Definition isSpace (c : ascii) : bool :=
  let n := nat_of_ascii c in
  ((9 <=? n) && (n <=? 13) || (n =? 32))%nat.

Fixpoint trimStart (s : string) : string :=
  match s with
  | String c r => if isSpace c then trimStart r else s
  | EmptyString => EmptyString
  end.

Fixpoint trimEnd (s : string) : string :=
  match s with
  | String c r =>
      match trimEnd r with
      | EmptyString => if isSpace c then EmptyString else String c EmptyString
      | r' => String c r'
      end
  | EmptyString => EmptyString
  end.

Definition trim (s : string) : string := trimEnd (trimStart s).

(** [s.split(/\s+/)], reading [s] from the left: [token] is the piece
    being read, [sep] says that the last character closed a piece.  The
    empty string gives one empty piece. *)
Fixpoint splitSpaces (s token : string) (sep : bool) : list string :=
  match s with
  | String c r =>
      if isSpace c then
        if sep then splitSpaces r token true
        else token :: splitSpaces r EmptyString true
      else splitSpaces r (token ++ String c EmptyString) false
  | EmptyString => [token]
  end.

Definition split (s : string) : list string := splitSpaces s EmptyString false.

Definition digitValue (c : ascii) : option Z :=
  let n := Z.of_nat (nat_of_ascii c) in
  if (48 <=? n) && (n <=? 57) then Some (n - 48)
  else if (97 <=? n) && (n <=? 122) then Some (n - 87)
  else if (65 <=? n) && (n <=? 90) then Some (n - 55)
  else None.

(** Reads the longest run of digits of the radix, continuing [value];
    gives the value, the number of digits read and the rest. *)
Fixpoint readDigits (radix : Z) (s : string) (value : Z) (count : Z)
  : Z * Z * string :=
  match s with
  | String c r =>
      match digitValue c with
      | Some d =>
          if d <? radix then readDigits radix r (value * radix + d) (count + 1)
          else (value, count, s)
      | None => (value, count, s)
      end
  | EmptyString => (value, count, s)
  end.

Definition readSign (s : string) : bool * string :=
  match s with
  | String "-" r => (true, r)
  | String "+" r => (false, r)
  | _ => (false, s)
  end.

(** [0x], [0o] and [0b] literals: digits of the radix up to the end. *)
Definition nonDecimal (radix : Z) (s : string) : number :=
  match readDigits radix s 0 0 with
  | (v, n, EmptyString) => if n =? 0 then NaN else ofZ v
  | _ => NaN
  end.

(** A signed decimal literal: [Infinity], or digits with an optional
    fraction and an optional exponent, at least one digit before the
    exponent. *)
Definition decimal (s : string) : number :=
  let (negative, s1) := readSign s in
  if String.eqb s1 "Infinity" then (if negative then NegInfinity else Infinity)
  else
    let '(ip, ni, s2) := readDigits 10 s1 0 0 in
    let '(m, nf, s3) :=
      match s2 with
      | String "." r => readDigits 10 r ip 0
      | _ => (ip, 0, s2)
      end in
    let '(e, ok, s4) :=
      match s3 with
      | String "e" r | String "E" r =>
          let (eneg, r1) := readSign r in
          let '(v, n, r2) := readDigits 10 r1 0 0 in
          (if eneg then - v else v, negb (n =? 0), r2)
      | _ => (0, true, s3)
      end in
    match s4 with
    | EmptyString =>
        if ((ni =? 0) && (nf =? 0)) || negb ok then NaN
        else Fin (Qred (inject_Z (if negative then - m else m)
                        * Qpower (inject_Z 10) (e - nf)))
    | _ => NaN
    end.

(** [Number(text)] on a string. *)
Definition Number (text : string) : number :=
  match trim text with
  | EmptyString => Fin 0
  | String "0" (String "x" r) | String "0" (String "X" r) => nonDecimal 16 r
  | String "0" (String "o" r) | String "0" (String "O" r) => nonDecimal 8 r
  | String "0" (String "b" r) | String "0" (String "B" r) => nonDecimal 2 r
  | s => decimal s
  end.

(** [text.trim().split(/\s+/).map(Number)], as the source reads every
    numeric array. *)
Definition numbers (text : string) : list number :=
  map Number (split (trim text)).

(** *** [Array.prototype.slice] *)

(** A relative index of [slice], clamped into [0 .. len]: NaN counts as
    0, a negative index counts from the end. *)
Definition relativeIndex (len : nat) (n : number) : nat :=
  match n with
  | NaN | NegInfinity => 0%nat
  | Infinity => len
  | Fin q =>
      let z := truncate q in
      if z <? 0 then Z.to_nat (Z.max (Z.of_nat len + z) 0)
      else Z.to_nat (Z.min z (Z.of_nat len))
  end.

(** [array.slice(start, end)]: an [undefined] start is 0, an [undefined]
    end is the length. *)
Definition slice {A : Type} (array : list A) (start end_ : Value) : list A :=
  let len := length array in
  let k := relativeIndex len (ToNumber start) in
  let final := match end_ with
               | None => len
               | Some n => relativeIndex len n
               end in
  firstn (final - k) (skipn k array).

End Js.

(** ** The parsed document *)

Record Element : Type := {
  ancestors : list string;
  tagName : string;
  attributes : list (string * string);
  textContent : string
}.

Definition XMLDocument : Type := list Element.

(** The selectors of the source: [within tag] and [within tag[Name="v"]]. *)
Record Selector : Type := {
  within : string;
  tag : string;
  withName : option string
}.

Definition getAttribute (el : Element) (name : string) : option string :=
  option_map snd (find (fun kv => String.eqb (fst kv) name) (attributes el)).

Definition matches (sel : Selector) (el : Element) : bool :=
  String.eqb (tagName el) (tag sel)
  && existsb (String.eqb (within sel)) (ancestors el)
  && match withName sel with
     | None => true
     | Some v =>
         match getAttribute el "Name" with
         | Some a => String.eqb a v
         | None => false
         end
     end.

Definition querySelector (doc : XMLDocument) (sel : Selector) : option Element :=
  find (matches sel) doc.

Definition querySelectorAll (doc : XMLDocument) (sel : Selector) : list Element :=
  filter (matches sel) doc.

Definition CellsDataArray (name : string) : Selector :=
  {| within := "Cells"; tag := "DataArray"; withName := Some name |}.

Definition PointDataDataArray (name : option string) : Selector :=
  {| within := "PointData"; tag := "DataArray"; withName := name |}.

Definition PointsDataArray : Selector :=
  {| within := "Points"; tag := "DataArray"; withName := None |}.

(** ** [getAllScalarFields] and [extractPoints] *)

(** A field name as [getAttribute] gives it: [None] is [null]. *)
Definition getAllScalarFields (xmlDoc : XMLDocument) : list (option string) :=
  map (fun array => getAttribute array "Name")
      (querySelectorAll xmlDoc (PointDataDataArray None)).

Definition extractPoints (xmlDoc : XMLDocument) : Outcome Js.Float32Array :=
  match querySelector xmlDoc PointsDataArray with
  | None => Throws TypeError
  | Some pointsTag => Returns (Js.numbers (textContent pointsTag))
  end.

(** ** [extractCells] *)

Definition VTK_TRIANGLE : Js.number := Js.ofZ 5.
Definition VTK_QUAD : Js.number := Js.ofZ 9.
Definition VTK_TETRA : Js.number := Js.ofZ 10.
Definition VTK_HEXAHEDRON : Js.number := Js.ofZ 12.
Definition VTK_WEDGE : Js.number := Js.ofZ 13.
Definition VTK_PYRAMID : Js.number := Js.ofZ 14.

Definition faces : list (list nat) :=
  [ [0; 1; 2; 3];
    [4; 5; 6; 7];
    [0; 1; 5; 4];
    [2; 3; 7; 6];
    [0; 3; 7; 4];
    [1; 2; 6; 5] ]%nat.

Definition wedgeFaces : list (list nat) :=
  [ [0; 1; 2];
    [3; 4; 5];
    [0; 1; 4; 3];
    [1; 2; 5; 4];
    [0; 2; 5; 3] ]%nat.

Definition pyramidFaces : list (list nat) :=
  [ [0; 1; 2; 3];
    [0; 1; 4];
    [1; 2; 4];
    [2; 3; 4];
    [3; 0; 4] ]%nat.

Section Cell.

Variable cellIndices : list Js.number.

(** The literal 3 that opens every pushed triangle. *)
Definition three : Js.Value := Some (Js.ofZ 3).

(** [cellIndices[k]]. *)
Definition at_ (k : nat) : Js.Value := nth_error cellIndices k.

(** [cellIndices[face[k]]]. *)
Definition corner (face : list nat) (k : nat) : Js.Value :=
  match nth_error face k with
  | Some idx => at_ idx
  | None => Js.undefined
  end.

(** The arguments of the [push] of a four-cornered face. *)
Definition pushQuadFace (face : list nat) : list Js.Value :=
  [ three; corner face 0; corner face 1; corner face 2;
    three; corner face 0; corner face 2; corner face 3 ].

(** The arguments of the [push] in the [forEach] over [wedgeFaces] and
    over [pyramidFaces]. *)
Definition pushFace (face : list nat) : list Js.Value :=
  if (length face =? 3)%nat then three :: map at_ face
  else pushQuadFace face.

(** The [switch (cellType)]: everything one cell pushes onto [cells]. *)
Definition pushCell (cellType numPoints : Js.number) : Outcome (list Js.Value) :=
  if Js.strictEq cellType VTK_TRIANGLE then
    Returns (three :: map Some cellIndices)
  else if Js.strictEq cellType VTK_QUAD then
    Returns [ three; at_ 0; at_ 1; at_ 2;
              three; at_ 0; at_ 2; at_ 3 ]
  else if Js.strictEq cellType VTK_TETRA then
    Returns [ three; at_ 0; at_ 1; at_ 2;
              three; at_ 0; at_ 2; at_ 3;
              three; at_ 0; at_ 3; at_ 1;
              three; at_ 1; at_ 3; at_ 2 ]
  else if Js.strictEq cellType VTK_HEXAHEDRON then
    Returns (flat_map pushQuadFace faces)
  else if Js.strictEq cellType VTK_WEDGE then
    Returns (flat_map pushFace wedgeFaces)
  else if Js.strictEq cellType VTK_PYRAMID then
    Returns (flat_map pushFace pyramidFaces)
  else if Js.ge numPoints (Js.ofZ 3) then
    match Js.forCount (Js.sub numPoints (Js.ofZ 2)) with
    | Some n =>
        Returns (flat_map (fun j => [three; at_ 0; at_ (j + 1); at_ (j + 2)])
                          (seq 0 n))
    | None => Diverges
    end
  else Returns [].

End Cell.

(** What the loop over the cells carries from one cell to the next. *)
Record LoopState : Type := {
  cells : list Js.Value;
  previousOffset : Js.Value
}.

Section Loop.

Variables connectivityArray offsetsArray : list Js.number.

(** The body of the loop, for the cell [i] of type [cellType]. *)
Definition loopBody (i : nat) (cellType : Js.number) (st : LoopState)
  : Outcome LoopState :=
  let offset := nth_error offsetsArray i in
  let numPoints := Js.sub (Js.ToNumber offset) (Js.ToNumber (previousOffset st)) in
  let cellIndices := Js.slice connectivityArray (previousOffset st) offset in
  pushed <- pushCell cellIndices cellType numPoints ;;
  Returns {| cells := cells st ++ pushed; previousOffset := offset |}.

(** [for (let i = ...; i < typesArray.length; i++)], on the types that
    are left from [i] on. *)
Fixpoint forCells (typesLeft : list Js.number) (i : nat) (st : LoopState)
  : Outcome LoopState :=
  match typesLeft with
  | [] => Returns st
  | cellType :: rest =>
      st' <- loopBody i cellType st ;;
      forCells rest (S i) st'
  end.

End Loop.

Definition MissingCellData : Exception :=
  Error "Missing required cell data in the VTU file.".

Definition extractCells (xmlDoc : XMLDocument) : Outcome Js.Uint32Array :=
  let connectivityTag := querySelector xmlDoc (CellsDataArray "connectivity") in
  let offsetsTag := querySelector xmlDoc (CellsDataArray "offsets") in
  let typesTag := querySelector xmlDoc (CellsDataArray "types") in
  match connectivityTag, offsetsTag, typesTag with
  | Some connectivityTag, Some offsetsTag, Some typesTag =>
      let connectivityArray := Js.numbers (textContent connectivityTag) in
      let offsetsArray := Js.numbers (textContent offsetsTag) in
      let typesArray := Js.numbers (textContent typesTag) in
      st <- forCells connectivityArray offsetsArray typesArray 0
              {| cells := []; previousOffset := Some (Js.ofZ 0) |} ;;
      Returns (Js.newUint32Array (cells st))
  | _, _, _ => Throws MissingCellData
  end.

(** ** The vtk.js objects the source fills *)

(** [vtkDataArray.newInstance({ name, values })]. *)
Record DataArray : Type := {
  name : option string;
  values : Js.Float32Array
}.

(** A [vtkPolyData] by the three things the source stores in it or reads
    from it: [getPoints().getData()], [getPolys().getData()] and
    [getPointData().getScalars()], which is [null] ([None]) as long as no
    array was set. *)
Record PolyData : Type := {
  points : Js.Float32Array;
  polys : Js.Uint32Array;
  scalars : option DataArray
}.

(** [vtkPolyData.newInstance()]: no point, no cell, no point data. *)
Definition newPolyData : PolyData :=
  {| points := []; polys := []; scalars := None |}.

Definition setPoints (polyData : PolyData) (data : Js.Float32Array) : PolyData :=
  {| points := data; polys := polys polyData; scalars := scalars polyData |}.

Definition setPolys (polyData : PolyData) (data : Js.Uint32Array) : PolyData :=
  {| points := points polyData; polys := data; scalars := scalars polyData |}.

Definition setScalars (polyData : PolyData) (array : option DataArray) : PolyData :=
  {| points := points polyData; polys := polys polyData; scalars := array |}.

(** One call [lut.addRGBPoint(x, r, g, b)]. *)
Record RGBPoint : Type := {
  x : Js.number;
  r : Js.number;
  g : Js.number;
  b : Js.number
}.

(** A [vtkMapper]: its input, the control points given to its lookup table
    (the calls of [addRGBPoint], in the order they are made) and its scalar
    range. *)
Record Mapper : Type := {
  inputData : option PolyData;
  lookupTable : list RGBPoint;
  scalarRange : Js.number * Js.number
}.

(** [vtkMapper.newInstance()]. *)
Definition newMapper : Mapper :=
  {| inputData := None; lookupTable := []; scalarRange := (Js.ofZ 0, Js.ofZ 1) |}.

Definition setInputData (mapper : Mapper) (polyData : PolyData) : Mapper :=
  {| inputData := Some polyData;
     lookupTable := lookupTable mapper;
     scalarRange := scalarRange mapper |}.

(** ** [extractScalars] *)

(** A name as [addVTUToScene] holds it: [None] is [undefined], [Some None]
    is [null]. *)
Definition FieldName : Type := option (option string).

(** The name inside a template literal. *)
Definition interpolate (scalarName : FieldName) : string :=
  match scalarName with
  | None => "undefined"
  | Some None => "null"
  | Some (Some s) => s
  end.

(** [null] ([None]) when no array of point data has the name.  The name is
    taken without quote or backslash, so that the selector built from it is
    the attribute test it looks like. *)
Definition extractScalars (xmlDoc : XMLDocument) (scalarName : FieldName)
  : option DataArray :=
  match querySelector xmlDoc (PointDataDataArray (Some (interpolate scalarName))) with
  | None => None
  | Some scalarTag =>
      Some {| name := getAttribute scalarTag "Name";
              values := Js.numbers (textContent scalarTag) |}
  end.

(** ** [applyColorMap] *)

Local Open Scope Q_scope.

Definition rgbPoint (x : Js.number) (r g b : Q) : RGBPoint :=
  {| x := x; r := Js.lit r; g := Js.lit g; b := Js.lit b |}.

Definition applyColorMap (mapper : Mapper) (scalarRange : Js.number * Js.number)
  : Mapper :=
  let min := fst scalarRange in
  let max := snd scalarRange in
  let stop (t : Q) := Js.add min (Js.mul (Js.sub max min) (Js.lit t)) in
  let lut :=
    [ rgbPoint min 0.0 0.0 1.0;
      rgbPoint (stop 0.125) 0.0 0.2157 1.0;
      rgbPoint (stop 0.25) 0.0 0.4275 1.0;
      rgbPoint (stop 0.375) 0.0392 0.6431 0.9961;
      rgbPoint (stop 0.5) 0.2745 0.8157 0.9255;
      rgbPoint (stop 0.625) 0.9961 0.6431 0.4745;
      rgbPoint (stop 0.75) 1.0 0.4275 0.2745;
      rgbPoint (stop 0.875) 1.0 0.2157 0.1333;
      rgbPoint max 1.0 0.0 0.0 ] in
  {| inputData := inputData mapper;
     lookupTable := lut;
     scalarRange := (min, max) |}.

Local Close Scope Q_scope.

(** ** [addVTUToScene], once the file is read and parsed *)

Record Options : Type := {
  scalarField : option string
}.

Record Scene : Type := {
  polyData : PolyData;
  actor : Mapper;
  scalarFields : list (option string)
}.

(** [options.scalarField || scalarFields[0]]: a missing or empty
    [scalarField] is falsy. *)
Definition selectScalar (options : Options) (scalarFields : list (option string))
  : FieldName :=
  match scalarField options with
  | Some EmptyString | None => nth_error scalarFields 0
  | Some s => Some (Some s)
  end.

Definition addVTUToScene (xmlDoc : XMLDocument) (options : Options) : Outcome Scene :=
  let scalarFields := getAllScalarFields xmlDoc in
  let selectedScalar := selectScalar options scalarFields in
  points <- extractPoints xmlDoc ;;
  cells <- extractCells xmlDoc ;;
  let polyData := setPolys (setPoints newPolyData points) cells in
  let scalars := extractScalars xmlDoc selectedScalar in
  let polyData := setScalars polyData scalars in
  let mapper := setInputData newMapper polyData in
  match scalars with
  | None => Throws TypeError
  | Some array =>
      let scalarRange := (Js.Math_min (values array), Js.Math_max (values array)) in
      let mapper := applyColorMap mapper scalarRange in
      Returns {| polyData := polyData; actor := mapper; scalarFields := scalarFields |}
  end.

(** ** [enableThreshold] *)

(** [array.filter((_, index) => keep(index))], from the index of the head
    of [array] on. *)
Fixpoint filterFrom {A : Type} (keep : nat -> bool) (index : nat) (array : list A)
  : list A :=
  match array with
  | [] => []
  | v :: rest =>
      if keep index then v :: filterFrom keep (S index) rest
      else filterFrom keep (S index) rest
  end.

(** [scalars.map((value) => value > thresholdValue)] on a [Float32Array]
    is again a [Float32Array]: it holds 1 for [true] and 0 for [false]. *)
Definition thresholdMask (scalars : Js.Float32Array) (thresholdValue : Js.number)
  : Js.Float32Array :=
  map (fun value => if Js.gt value thresholdValue then Js.ofZ 1 else Js.ofZ 0)
      scalars.

(** The actor is its mapper. *)
Definition enableThreshold (mapper : Mapper) (thresholdValue : Js.number)
  : Outcome Mapper :=
  match inputData mapper with
  | None => Throws TypeError
  | Some polyData =>
      match scalars polyData with
      | None => Throws TypeError
      | Some array =>
          let scalars := values array in
          let mask := thresholdMask scalars thresholdValue in
          let filteredPoints :=
            filterFrom (fun index => Js.truthy (nth_error mask (index / 3)))
                       0 (points polyData) in
          let filteredPolyData := setPoints newPolyData filteredPoints in
          Returns (setInputData mapper filteredPolyData)
      end
  end.

(** ** [setRepresentation] *)

(** The two settings of the actor's [vtkProperty] that the source writes. *)
Record Property : Type := {
  representation : Z;
  edgeVisibility : bool
}.

(** The actor is its property here; a [type] that is none of the four
    strings leaves it as it is. *)
Definition setRepresentation (property : Property) (type : string) : Property :=
  if String.eqb type "points" then
    {| representation := 0; edgeVisibility := edgeVisibility property |}
  else if String.eqb type "wireframe" then
    {| representation := 1; edgeVisibility := edgeVisibility property |}
  else if String.eqb type "surface" then
    {| representation := 2; edgeVisibility := edgeVisibility property |}
  else if String.eqb type "surface_with_edges" then
    {| representation := 2; edgeVisibility := true |}
  else property.

(** ** The vocabulary of the statements *)

Local Open Scope nat_scope.
Local Open Scope list_scope.

(** A triangle as the cell buffer holds it: the marker 3, then its three
    point indices. *)
Definition encode (triangles : list (Js.Value * Js.Value * Js.Value))
  : list Js.Value :=
  flat_map (fun '(p, q, r) => [three; p; q; r]) triangles.

(** A [DataArray] element of a section of the file, for the examples. *)
Definition dataArray (section name text : string) : Element :=
  {| ancestors := ["VTKFile"; "UnstructuredGrid"; "Piece"; section];
     tagName := "DataArray";
     attributes := [("type", "Float32"); ("Name", name); ("format", "ascii")];
     textContent := text |}.

(** A document that holds the three cell arrays and nothing else. *)
Definition cellsDocument (connectivity offsets types : string) : XMLDocument :=
  [ dataArray "Cells" "connectivity" connectivity;
    dataArray "Cells" "offsets" offsets;
    dataArray "Cells" "types" types ]%string.

(** The state in which the loop over the cells starts. *)
Definition start : LoopState :=
  {| cells := []; previousOffset := Some (Js.ofZ 0) |}.

(** The cell [i], of type [cellType], leaves the loop with exactly these
    triangles appended to the buffer, and with its own offset as the
    previous one. *)
Definition appends (connectivityArray offsetsArray : list Js.number) (i : nat)
    (cellType : Js.number) (st : LoopState)
    (triangles : list (Js.Value * Js.Value * Js.Value)) : Prop :=
  loopBody connectivityArray offsetsArray i cellType st
    = Returns {| cells := cells st ++ encode triangles;
                 previousOffset := nth_error offsetsArray i |}.

(** The two triangles of a four-cornered face, cut from its corner 0 to its
    corner 2. *)
Definition diagonalSplit (p0 p1 p2 p3 : Js.Value)
  : list (Js.Value * Js.Value * Js.Value) :=
  [ (p0, p1, p2); (p0, p2, p3) ].

Definition knownType (cellType : Js.number) : bool :=
  existsb (Js.strictEq cellType)
    [VTK_TRIANGLE; VTK_QUAD; VTK_TETRA; VTK_HEXAHEDRON; VTK_WEDGE; VTK_PYRAMID].

(** No element of the document is selected. *)
Definition absent (xmlDoc : XMLDocument) (sel : Selector) : Prop :=
  forall el, In el xmlDoc -> matches sel el = false.

(** Each number is below the next one. *)
Fixpoint increasing (xs : list Js.number) : Prop :=
  match xs with
  | a :: (b :: _) as rest => Js.lt a b = true /\ increasing rest
  | _ => True
  end.

(** A control point whose colour is given in ten-thousandths. *)
Definition controlPoint (x : Js.number) (r g b : Z) : RGBPoint :=
  {| x := x;
     r := Js.lit (r # 10000);
     g := Js.lit (g # 10000);
     b := Js.lit (b # 10000) |}.

(** The coordinates that the point [i] owns in a flat point buffer: the
    places [3i], [3i+1], [3i+2]. *)
Definition coordinates {A : Type} (pts : list A) (i : nat) : list A :=
  firstn 3 (skipn (3 * i) pts).

(** The point [i] has a scalar value, and it is above the threshold. *)
Definition passes (s : Js.Float32Array) (t : Js.number) (i : nat) : bool :=
  match nth_error s i with
  | Some v => Js.gt v t
  | None => false
  end.

(** The coordinates of the passing points, one point after the other. *)
Definition passingCoordinates {A : Type} (s : Js.Float32Array) (t : Js.number)
    (pts : list A) : list A :=
  flat_map (coordinates pts) (filter (passes s t) (seq 0 (length s))).

(** A mesh of four points and one quad with the field T, as [addVTUToScene]
    leaves it in the mapper. *)
Definition quadMapper : Mapper :=
  setInputData newMapper
    {| points := map Js.ofZ [0; 0; 0;  1; 0; 0;  1; 1; 0;  0; 1; 0]%Z;
       polys := [3; 0; 1; 2;  3; 0; 2; 3]%Z;
       scalars := Some {| name := Some "T"%string;
                          values := map Js.ofZ [1; 2; 3; 4]%Z |} |}.

(** The array of point data that [addVTUToScene] reads its scalars from. *)
Definition chosenField (xmlDoc : XMLDocument) (options : Options) : option Element :=
  querySelector xmlDoc
    (PointDataDataArray
       (Some (interpolate (selectScalar options (getAllScalarFields xmlDoc))))).


(** A buffer of triangles: the marker 3 and three indices, again and
    again, up to the end. *)
Fixpoint framed (buffer : list Z) : bool :=
  match buffer with
  | [] => true
  | marker :: _ :: _ :: _ :: rest => (marker =? 3)%Z && framed rest
  | _ => false
  end.

(** Every cell of type 5 has a window of three point indices, for the cells
    from [i] on, [previous] being the offset of the cell before. *)
Fixpoint threePointTriangles (connectivityArray offsetsArray : list Js.number)
    (typesLeft : list Js.number) (i : nat) (previous : Js.Value) : bool :=
  match typesLeft with
  | [] => true
  | cellType :: rest =>
      (negb (Js.strictEq cellType VTK_TRIANGLE)
       || (length (Js.slice connectivityArray previous (nth_error offsetsArray i))
           =? 3))
      && threePointTriangles connectivityArray offsetsArray rest (S i)
           (nth_error offsetsArray i)
  end.

(** A number that is neither NaN nor an infinity. *)
Definition finite (n : Js.number) : bool :=
  match n with
  | Js.Fin _ => true
  | _ => false
  end.

(** The points array, the three cell arrays and the chosen field are in the
    document. *)
Definition complete (xmlDoc : XMLDocument) (options : Options) : Prop :=
  querySelector xmlDoc PointsDataArray <> None
  /\ querySelector xmlDoc (CellsDataArray "connectivity") <> None
  /\ querySelector xmlDoc (CellsDataArray "offsets") <> None
  /\ querySelector xmlDoc (CellsDataArray "types") <> None
  /\ chosenField xmlDoc options <> None.

(** A mesh of two triangles with a second field. *)
Definition twoFieldDocument : XMLDocument :=
  [ dataArray "Points" "Points" "0 0 0  1 0 0  1 1 0  0 1 0";
    dataArray "Cells" "connectivity" "0 1 2  0 2 3";
    dataArray "Cells" "offsets" "3 6";
    dataArray "Cells" "types" "5 5";
    dataArray "PointData" "T" "4 1 3 2";
    dataArray "PointData" "p" "7 7 7 7" ]%string.

(** A name that the selector [PointData DataArray[Name="..."]] takes
    literally: inside the quotes of the selector a quote ends the name, a
    backslash starts an escape, a line break breaks the string and a NUL is
    replaced. *)
Definition plainChar (c : ascii) : bool :=
  let n := nat_of_ascii c in
  negb ((n =? 34) || (n =? 92) || (n =? 10) || (n =? 12) || (n =? 13)
        || (n =? 0)).

Fixpoint plainName (s : string) : bool :=
  match s with
  | EmptyString => true
  | String c rest => plainChar c && plainName rest
  end.

(** A value of the cell buffer that is the marker 3, [undefined], or one of
    the numbers of [window]. *)
Definition fromWindow (window : list Js.number) (v : Js.Value) : Prop :=
  v = three \/ v = Js.undefined \/ exists n, v = Some n /\ In n window.

(** A value of the cell buffer that is [undefined] or one of the numbers
    of [window]; triangles all of whose corners are such values. *)
Definition cornerOf (window : list Js.number) (v : Js.Value) : Prop :=
  v = Js.undefined \/ exists n, v = Some n /\ In n window.

Definition cornersOf (window : list Js.number)
    (triangles : list (Js.Value * Js.Value * Js.Value)) : Prop :=
  Forall (fun '(p, q, r) =>
            cornerOf window p /\ cornerOf window q /\ cornerOf window r)
         triangles.

(** ** Properties of the tessellation *)

Lemma strictEq_ofZ (c : Js.number) (a : Z) :
  Js.strictEq c (Js.ofZ a) = true ->
  exists q, c = Js.Fin q /\ (q == inject_Z a)%Q.
Proof.
  destruct c as [| | |q]; cbn; try discriminate.
  unfold Js.strictEq; cbn.
  destruct (q ?= inject_Z a)%Q eqn:E; try discriminate.
  intros _. exists q. split; [reflexivity|]. now apply Qeq_alt.
Qed.

Lemma strictEq_other (c : Js.number) (a b : Z) :
  Js.strictEq c (Js.ofZ a) = true -> a <> b ->
  Js.strictEq c (Js.ofZ b) = false.
Proof.
  intros H Hab. destruct (strictEq_ofZ _ _ H) as (q & -> & Hq).
  unfold Js.strictEq; cbn.
  destruct (q ?= inject_Z b)%Q eqn:E; try reflexivity.
  apply Qeq_alt in E. rewrite Hq in E.
  exfalso. apply Hab. unfold Qeq in E. cbn in E. lia.
Qed.

(** Settles the tests of the [switch] once the tag is known. *)
Ltac switch_on H :=
  unfold loopBody, pushCell;
  unfold VTK_TRIANGLE, VTK_QUAD, VTK_TETRA, VTK_HEXAHEDRON, VTK_WEDGE,
    VTK_PYRAMID in *;
  repeat (rewrite (strictEq_other _ _ _ H) by discriminate);
  rewrite H.

(** C1. A quad cell (tag 9) whose window of point indices is [a, b, c, d]
    appends exactly the two triangles (a, b, c) and (a, c, d) to the cell
    buffer: the quad is cut along the diagonal between its points 0 and 2. *)
Theorem quad_split_along_0_2 :
  forall (connectivityArray offsetsArray : list Js.number) (i : nat)
         (cellType : Js.number) (st : LoopState) (a b c d : Js.number),
    Js.strictEq cellType VTK_QUAD = true ->
    Js.slice connectivityArray (previousOffset st) (nth_error offsetsArray i)
      = [a; b; c; d] ->
    appends connectivityArray offsetsArray i cellType st
      [ (Some a, Some b, Some c);
        (Some a, Some c, Some d) ].
Proof.
  intros conn offs i cellType st a b c d Htag Hwin.
  unfold appends. switch_on Htag. rewrite Hwin. reflexivity.
Qed.

Lemma quad_split_along_0_2_witness :
  loopBody (map Js.ofZ [0; 1; 2; 3]%Z) [Js.ofZ 4] 0 (Js.ofZ 9) start
    = Returns {| cells := map (fun z => Some (Js.ofZ z))
                            [3; 0; 1; 2;  3; 0; 2; 3]%Z;
                 previousOffset := Some (Js.ofZ 4) |}.
Proof.
  apply (quad_split_along_0_2 (map Js.ofZ [0; 1; 2; 3]%Z) [Js.ofZ 4] 0
           (Js.ofZ 9) start (Js.ofZ 0) (Js.ofZ 1) (Js.ofZ 2) (Js.ofZ 3));
    reflexivity.
Defined.

(** C2. A tetrahedron cell (tag 10) whose window of point indices is
    [a, b, c, d] appends exactly four triangles, one per face, by the table
    (0,1,2), (0,2,3), (0,3,1), (1,3,2): (a,b,c), (a,c,d), (a,d,b), (b,d,c),
    in that order. *)
Theorem tetra_four_faces :
  forall (connectivityArray offsetsArray : list Js.number) (i : nat)
         (cellType : Js.number) (st : LoopState) (a b c d : Js.number),
    Js.strictEq cellType VTK_TETRA = true ->
    Js.slice connectivityArray (previousOffset st) (nth_error offsetsArray i)
      = [a; b; c; d] ->
    appends connectivityArray offsetsArray i cellType st
      [ (Some a, Some b, Some c);
        (Some a, Some c, Some d);
        (Some a, Some d, Some b);
        (Some b, Some d, Some c) ].
Proof.
  intros conn offs i cellType st a b c d Htag Hwin.
  unfold appends. switch_on Htag. rewrite Hwin. reflexivity.
Qed.

Lemma tetra_four_faces_witness :
  loopBody (map Js.ofZ [0; 1; 2; 3]%Z) [Js.ofZ 4] 0 (Js.ofZ 10) start
    = Returns {| cells := map (fun z => Some (Js.ofZ z))
                            [3; 0; 1; 2;  3; 0; 2; 3;  3; 0; 3; 1;  3; 1; 3; 2]%Z;
                 previousOffset := Some (Js.ofZ 4) |}.
Proof.
  apply (tetra_four_faces (map Js.ofZ [0; 1; 2; 3]%Z) [Js.ofZ 4] 0
           (Js.ofZ 10) start (Js.ofZ 0) (Js.ofZ 1) (Js.ofZ 2) (Js.ofZ 3));
    reflexivity.
Defined.

(** C3. A hexahedron cell (tag 12) appends exactly 12 triangles, its six
    four-cornered faces each cut from corner 0 to corner 2; a wedge cell
    (tag 13) exactly 8, its two three-cornered end faces as they are and its
    three four-cornered side faces cut; a pyramid cell (tag 14) exactly 6,
    its four-cornered base cut and its four three-cornered sides as they
    are.  [w k] is the point index at place [k] of the window of the cell. *)
Theorem hexahedron_wedge_pyramid :
  forall (connectivityArray offsetsArray : list Js.number) (i : nat)
         (cellType : Js.number) (st : LoopState),
    let w := at_ (Js.slice connectivityArray (previousOffset st)
                    (nth_error offsetsArray i)) in
    let hexahedron :=
      diagonalSplit (w 0) (w 1) (w 2) (w 3)
      ++ diagonalSplit (w 4) (w 5) (w 6) (w 7)
      ++ diagonalSplit (w 0) (w 1) (w 5) (w 4)
      ++ diagonalSplit (w 2) (w 3) (w 7) (w 6)
      ++ diagonalSplit (w 0) (w 3) (w 7) (w 4)
      ++ diagonalSplit (w 1) (w 2) (w 6) (w 5) in
    let wedge :=
      [ (w 0, w 1, w 2); (w 3, w 4, w 5) ]
      ++ diagonalSplit (w 0) (w 1) (w 4) (w 3)
      ++ diagonalSplit (w 1) (w 2) (w 5) (w 4)
      ++ diagonalSplit (w 0) (w 2) (w 5) (w 3) in
    let pyramid :=
      diagonalSplit (w 0) (w 1) (w 2) (w 3)
      ++ [ (w 0, w 1, w 4); (w 1, w 2, w 4); (w 2, w 3, w 4); (w 3, w 0, w 4) ] in
    (Js.strictEq cellType VTK_HEXAHEDRON = true ->
       length hexahedron = 12 /\
       appends connectivityArray offsetsArray i cellType st hexahedron)
    /\ (Js.strictEq cellType VTK_WEDGE = true ->
       length wedge = 8 /\
       appends connectivityArray offsetsArray i cellType st wedge)
    /\ (Js.strictEq cellType VTK_PYRAMID = true ->
       length pyramid = 6 /\
       appends connectivityArray offsetsArray i cellType st pyramid).
Proof.
  intros conn offs i cellType st w hexahedron wedge pyramid.
  repeat split; unfold appends; switch_on H; reflexivity.
Qed.

Lemma hexahedron_wedge_pyramid_witness :
  loopBody (map Js.ofZ [0; 1; 2; 3; 4; 5; 6; 7]%Z) [Js.ofZ 8] 0
      (Js.ofZ 12) start
    = Returns {| cells := map (fun z => Some (Js.ofZ z))
                   [ 3; 0; 1; 2;  3; 0; 2; 3;  3; 4; 5; 6;  3; 4; 6; 7;
                     3; 0; 1; 5;  3; 0; 5; 4;  3; 2; 3; 7;  3; 2; 7; 6;
                     3; 0; 3; 7;  3; 0; 7; 4;  3; 1; 2; 6;  3; 1; 6; 5 ]%Z;
                 previousOffset := Some (Js.ofZ 8) |}
  /\ loopBody (map Js.ofZ [0; 1; 2; 3; 4; 5]%Z) [Js.ofZ 6] 0
       (Js.ofZ 13) start
    = Returns {| cells := map (fun z => Some (Js.ofZ z))
                   [ 3; 0; 1; 2;  3; 3; 4; 5;  3; 0; 1; 4;  3; 0; 4; 3;
                     3; 1; 2; 5;  3; 1; 5; 4;  3; 0; 2; 5;  3; 0; 5; 3 ]%Z;
                 previousOffset := Some (Js.ofZ 6) |}
  /\ loopBody (map Js.ofZ [0; 1; 2; 3; 4]%Z) [Js.ofZ 5] 0 (Js.ofZ 14) start
    = Returns {| cells := map (fun z => Some (Js.ofZ z))
                   [ 3; 0; 1; 2;  3; 0; 2; 3;  3; 0; 1; 4;  3; 1; 2; 4;
                     3; 2; 3; 4;  3; 3; 0; 4 ]%Z;
                 previousOffset := Some (Js.ofZ 5) |}.
Proof.
  split; [|split].
  - apply (proj1 (hexahedron_wedge_pyramid
             (map Js.ofZ [0; 1; 2; 3; 4; 5; 6; 7]%Z) [Js.ofZ 8] 0
             (Js.ofZ 12) start)).
    reflexivity.
  - apply (proj1 (proj2 (hexahedron_wedge_pyramid
             (map Js.ofZ [0; 1; 2; 3; 4; 5]%Z) [Js.ofZ 6] 0 (Js.ofZ 13) start))).
    reflexivity.
  - apply (proj2 (proj2 (hexahedron_wedge_pyramid
             (map Js.ofZ [0; 1; 2; 3; 4]%Z) [Js.ofZ 5] 0 (Js.ofZ 14) start))).
    reflexivity.
Defined.

(** *** Offsets that are whole numbers inside the connectivity array *)

Lemma Qred_inject_Z (z : Z) : Qred (inject_Z z) = inject_Z z.
Proof.
  unfold Qred, inject_Z.
  generalize (Z.ggcd_gcd z 1) (Z.ggcd_correct_divisors z 1).
  destruct (Z.ggcd z 1) as (d, (zz, one)). cbn.
  rewrite Z.gcd_1_r. intros -> [Hz Hone].
  rewrite Z.mul_1_l in Hz, Hone. now subst.
Qed.

Lemma sub_ofZ (a b : Z) : Js.sub (Js.ofZ a) (Js.ofZ b) = Js.ofZ (a - b).
Proof.
  unfold Js.sub, Js.ofZ, Js.neg, Js.add. f_equal.
  rewrite <- (Qred_inject_Z (a - b)). apply Qred_complete.
  unfold Z.sub. rewrite inject_Z_plus, inject_Z_opp. reflexivity.
Qed.

Lemma ge_ofZ (a b : Z) : Js.ge (Js.ofZ a) (Js.ofZ b) = (b <=? a)%Z.
Proof.
  unfold Js.ge, Js.ofZ, Js.compare, Qcompare; cbn.
  rewrite !Z.mul_1_r.
  destruct (Z.compare_spec a b); symmetry;
    [apply Z.leb_le | apply Z.leb_gt | apply Z.leb_le]; lia.
Qed.

Lemma forCount_ofZ (n : Z) : Js.forCount (Js.ofZ n) = Some (Z.to_nat n).
Proof. unfold Js.forCount, Js.ofZ. now rewrite Qceiling_Z. Qed.

Lemma truncate_inject_Z (z : Z) : Js.truncate (inject_Z z) = z.
Proof. unfold Js.truncate; cbn. apply Z.quot_1_r. Qed.

Lemma relativeIndex_ofZ (len : nat) (z : Z) :
  (0 <= z <= Z.of_nat len)%Z ->
  Js.relativeIndex len (Js.ofZ z) = Z.to_nat z.
Proof.
  intros Hz. unfold Js.relativeIndex, Js.ofZ. rewrite truncate_inject_Z.
  destruct (Z.ltb_spec z 0); [lia|]. f_equal. lia.
Qed.

(** The window [connectivity[p .. o)] of a cell, and its length. *)
Lemma slice_window {A : Type} (array : list A) (p o : Z) :
  (0 <= p <= o)%Z -> (o <= Z.of_nat (length array))%Z ->
  Js.slice array (Some (Js.ofZ p)) (Some (Js.ofZ o))
    = firstn (Z.to_nat (o - p)) (skipn (Z.to_nat p) array)
  /\ Z.of_nat (length (Js.slice array (Some (Js.ofZ p)) (Some (Js.ofZ o))))
     = (o - p)%Z.
Proof.
  intros Hp Ho. unfold Js.slice; cbn [Js.ToNumber].
  rewrite !relativeIndex_ofZ by lia.
  replace (Z.to_nat o - Z.to_nat p) with (Z.to_nat (o - p)) by lia.
  split; [reflexivity|].
  rewrite length_firstn, length_skipn. lia.
Qed.

Lemma encode_map {X : Type} (f : X -> Js.Value * Js.Value * Js.Value) (l : list X) :
  encode (map f l)
    = flat_map (fun j => let '(p, q, r) := f j in [three; p; q; r]) l.
Proof.
  unfold encode. induction l as [|j l IH]; cbn; [reflexivity|].
  destruct (f j) as [[p q] r]. cbn. now rewrite <- IH.
Qed.

Lemma knownType_false (cellType : Js.number) :
  knownType cellType = false ->
  Js.strictEq cellType VTK_TRIANGLE = false
  /\ Js.strictEq cellType VTK_QUAD = false
  /\ Js.strictEq cellType VTK_TETRA = false
  /\ Js.strictEq cellType VTK_HEXAHEDRON = false
  /\ Js.strictEq cellType VTK_WEDGE = false
  /\ Js.strictEq cellType VTK_PYRAMID = false.
Proof.
  unfold knownType; cbn [existsb]. intros H.
  repeat (apply orb_false_elim in H; destruct H as [? H]).
  repeat split; assumption.
Qed.

(** C4. A cell whose tag is none of 5, 9, 10, 12, 13, 14, between the whole
    offsets [p] and [o]: the loop body returns, and it appends the fan
    anchored at the first point of the window over the [o - p] points that
    the offsets give the cell.  When the offsets lie inside the connectivity
    array, the window [connectivity[p .. o)] has [n = o - p] points; then
    for [n >= 3] exactly the [n - 2] triangles (0, j+1, j+2), j = 0 .. n-3,
    are appended in that order, and for [n < 3] nothing is appended. *)
Theorem fan_fallback :
  forall (connectivityArray offsetsArray : list Js.number) (i : nat)
         (cellType : Js.number) (st : LoopState) (p o : Z),
    knownType cellType = false ->
    previousOffset st = Some (Js.ofZ p) ->
    nth_error offsetsArray i = Some (Js.ofZ o) ->
    let window := Js.slice connectivityArray (previousOffset st)
                    (nth_error offsetsArray i) in
    let fan (n : nat) :=
      map (fun j => (at_ window 0, at_ window (j + 1), at_ window (j + 2)))
          (seq 0 (n - 2)) in
    appends connectivityArray offsetsArray i cellType st (fan (Z.to_nat (o - p)))
    /\ ((0 <= p <= o)%Z ->
        (o <= Z.of_nat (length connectivityArray))%Z ->
        let n := length window in
        window = firstn (Z.to_nat (o - p)) (skipn (Z.to_nat p) connectivityArray)
        /\ n = Z.to_nat (o - p)
        /\ (3 <= n ->
            length (fan n) = n - 2
            /\ appends connectivityArray offsetsArray i cellType st (fan n))
        /\ (n < 3 -> appends connectivityArray offsetsArray i cellType st [])).
Proof.
  intros conn offs i cellType st p o Htag Hprev Hoff window fan.
  assert (Hbody : appends conn offs i cellType st (fan (Z.to_nat (o - p)))).
  { subst fan window. unfold appends, loopBody, pushCell.
    destruct (knownType_false _ Htag) as (-> & -> & -> & -> & -> & ->).
    rewrite Hprev, Hoff. cbn [Js.ToNumber].
    rewrite sub_ofZ, ge_ofZ, sub_ofZ, forCount_ofZ, encode_map.
    destruct (Z.leb_spec 3 (o - p)) as [H3|H3]; cbn [bind].
    - do 5 f_equal. lia.
    - replace (Z.to_nat (o - p) - 2) with 0 by lia. reflexivity. }
  split; [exact Hbody|].
  intros Hp Ho n.
  destruct (slice_window conn p o Hp Ho) as [Hwin Hlen].
  assert (Hn : n = Z.to_nat (o - p)).
  { subst n window. rewrite Hprev, Hoff. lia. }
  split; [subst window; now rewrite Hprev, Hoff|].
  split; [exact Hn|]. rewrite <- Hn in Hbody. split.
  - intros _. split; [|exact Hbody].
    subst fan. cbn beta. now rewrite length_map, length_seq.
  - intros Hlt. subst fan. cbn beta in Hbody.
    replace (n - 2) with 0 in Hbody by lia. exact Hbody.
Qed.

Lemma fan_fallback_witness :
  loopBody (map Js.ofZ [0; 1; 2; 3; 4]%Z) [Js.ofZ 5] 0 (Js.ofZ 1) start
    = Returns {| cells := map (fun z => Some (Js.ofZ z))
                            [3; 0; 1; 2;  3; 0; 2; 3;  3; 0; 3; 4]%Z;
                 previousOffset := Some (Js.ofZ 5) |}
  /\ loopBody (map Js.ofZ [7; 8]%Z) [Js.ofZ 2] 0 (Js.ofZ 3) start
    = Returns {| cells := []; previousOffset := Some (Js.ofZ 2) |}.
Proof.
  split.
  - refine (proj2 (proj1 (proj2 (proj2 (proj2
      (fan_fallback (map Js.ofZ [0; 1; 2; 3; 4]%Z) [Js.ofZ 5] 0
         (Js.ofZ 1) start 0%Z 5%Z eq_refl eq_refl eq_refl) _ _))) _));
      first [lia | cbn; lia | vm_compute; lia].
  - refine (proj2 (proj2 (proj2
      (proj2 (fan_fallback (map Js.ofZ [7; 8]%Z) [Js.ofZ 2] 0
         (Js.ofZ 3) start 0%Z 2%Z eq_refl eq_refl eq_refl) _ _))) _);
      first [lia | cbn; lia | vm_compute; lia].
Defined.

(** *** The whole of [extractCells] on small documents *)

Example triangle_2_5_9 :
  extractCells (cellsDocument "2 5 9" "3" "5") = Returns [3; 2; 5; 9]%Z.
Proof. reflexivity. Qed.

Example quad_0_1_2_3 :
  extractCells (cellsDocument "0 1 2 3" "4" "9")
    = Returns [3; 0; 1; 2;  3; 0; 2; 3]%Z.
Proof. reflexivity. Qed.

Example tetra_0_1_2_3 :
  extractCells (cellsDocument "0 1 2 3" "4" "10")
    = Returns [3; 0; 1; 2;  3; 0; 2; 3;  3; 0; 3; 1;  3; 1; 3; 2]%Z.
Proof. reflexivity. Qed.

Example hexahedron_twelve :
  option_map (@length Z)
    (match extractCells (cellsDocument "10 11 12 13 14 15 16 17" "8" "12") with
     | Returns buffer => Some buffer
     | _ => None
     end) = Some (4 * 12).
Proof. reflexivity. Qed.

Example unknown_type_five_points :
  extractCells (cellsDocument "0 1 2 3 4" "5" "1")
    = Returns [3; 0; 1; 2;  3; 0; 2; 3;  3; 0; 3; 4]%Z.
Proof. reflexivity. Qed.

Example several_cells :
  extractCells (cellsDocument "0 1 2 3 4 7 8 9 2 5 9" "5 7 8 11" "1 3 1 5")
    = Returns [3; 0; 1; 2;  3; 0; 2; 3;  3; 0; 3; 4;  3; 2; 5; 9]%Z.
Proof. reflexivity. Qed.

(** An offset past the end of the connectivity array: the fan runs over
    the offsets, the missing indices are [undefined] and are stored as 0. *)
Example offset_past_the_end :
  extractCells (cellsDocument "0 1 2" "5" "1")
    = Returns [3; 0; 1; 2;  3; 0; 2; 0;  3; 0; 0; 0]%Z.
Proof. reflexivity. Qed.

Example offset_without_end :
  extractCells (cellsDocument "0 1 2" "Infinity" "1") = Diverges.
Proof. reflexivity. Qed.

(** ** Properties of the required cell arrays *)

Lemma querySelector_None (xmlDoc : XMLDocument) (sel : Selector) :
  querySelector xmlDoc sel = None <-> absent xmlDoc sel.
Proof.
  unfold querySelector, absent. split.
  - intros H el Hin. exact (find_none _ _ H el Hin).
  - induction xmlDoc as [|el rest IH]; intros H; cbn; [reflexivity|].
    rewrite (H el (or_introl eq_refl)). apply IH.
    intros el' Hin. apply H. now right.
Qed.

Lemma pushCell_no_throw (cellIndices : list Js.number)
    (cellType numPoints : Js.number) (e : Exception) :
  pushCell cellIndices cellType numPoints <> Throws e.
Proof.
  unfold pushCell.
  repeat match goal with
         | |- context [if ?c then _ else _] => destruct c
         | |- context [match Js.forCount ?n with _ => _ end] =>
             destruct (Js.forCount n)
         end; discriminate.
Qed.

Lemma forCells_no_throw (connectivityArray offsetsArray typesLeft : list Js.number)
    (i : nat) (st : LoopState) (e : Exception) :
  forCells connectivityArray offsetsArray typesLeft i st <> Throws e.
Proof.
  revert i st. induction typesLeft as [|cellType rest IH]; intros i st; cbn.
  - discriminate.
  - unfold loopBody.
    destruct (pushCell _ cellType _) as [pushed|e'|] eqn:E; cbn.
    + apply IH.
    + now apply pushCell_no_throw in E.
    + discriminate.
Qed.

(** The one thing [extractCells] throws, and when. *)
Lemma extractCells_Throws (xmlDoc : XMLDocument) (e : Exception) :
  extractCells xmlDoc = Throws e ->
  e = MissingCellData
  /\ (querySelector xmlDoc (CellsDataArray "connectivity") = None
      \/ querySelector xmlDoc (CellsDataArray "offsets") = None
      \/ querySelector xmlDoc (CellsDataArray "types") = None).
Proof.
  unfold extractCells.
  destruct (querySelector xmlDoc (CellsDataArray "connectivity")) as [c|];
    [|intros [= <-]; auto].
  destruct (querySelector xmlDoc (CellsDataArray "offsets")) as [o|];
    [|intros [= <-]; auto].
  destruct (querySelector xmlDoc (CellsDataArray "types")) as [t|];
    [|intros [= <-]; auto].
  destruct (forCells _ _ _ 0 _) as [st|e'|] eqn:E; cbn; try discriminate.
  now apply forCells_no_throw in E.
Qed.

(** C5. [extractCells] throws its missing-cell-data error exactly when one
    of the three arrays [connectivity], [offsets], [types] of the cell
    section is absent from the document; it throws nothing else; and when it
    throws, [addVTUToScene] throws as well, so that no triangle buffer and no
    mesh exist. *)
Theorem missing_cell_data :
  forall xmlDoc : XMLDocument,
    (extractCells xmlDoc = Throws MissingCellData
     <-> absent xmlDoc (CellsDataArray "connectivity")
         \/ absent xmlDoc (CellsDataArray "offsets")
         \/ absent xmlDoc (CellsDataArray "types"))
    /\ (forall e, extractCells xmlDoc = Throws e -> e = MissingCellData)
    /\ (forall e options, extractCells xmlDoc = Throws e ->
          exists e', addVTUToScene xmlDoc options = Throws e').
Proof.
  intros xmlDoc.
  pose proof (extractCells_Throws xmlDoc) as Honly.
  split; [split|split].
  - intros H. destruct (Honly _ H) as [_ Hq].
    now rewrite <- !querySelector_None.
  - rewrite <- !querySelector_None. unfold extractCells.
    intros [-> | [-> | ->]];
      repeat match goal with
             | |- context [match ?q with Some _ => _ | None => _ end] => destruct q
             end; reflexivity.
  - intros e H. now destruct (Honly _ H).
  - intros e options H. unfold addVTUToScene.
    destruct (extractPoints xmlDoc) as [pts|e'|] eqn:E; cbn.
    + rewrite H. cbn. now exists e.
    + now exists e'.
    + unfold extractPoints in E.
      destruct (querySelector xmlDoc PointsDataArray); discriminate E.
Qed.

Lemma missing_cell_data_witness :
  extractCells [ dataArray "Cells" "connectivity" "0 1 2";
                 dataArray "Cells" "offsets" "3" ]%string
    = Throws MissingCellData.
Proof.
  apply (proj2 (proj1 (missing_cell_data
                         [ dataArray "Cells" "connectivity" "0 1 2";
                           dataArray "Cells" "offsets" "3" ]%string))).
  right. right. intros el [<- | [<- | []]]; reflexivity.
Defined.

(** ** Properties of the colour map *)

Lemma stop_eq (min max t t' : Q) :
  (t == t')%Q ->
  Js.add (Js.Fin min) (Js.mul (Js.sub (Js.Fin max) (Js.Fin min)) (Js.lit t))
    = Js.lit (min + (max - min) * t').
Proof.
  intros Ht. unfold Js.sub, Js.lit, Js.neg, Js.mul, Js.add. f_equal.
  apply Qred_complete. rewrite !Qred_correct, Ht. ring.
Qed.

Lemma lt_lit (p q : Q) : (p < q)%Q -> Js.lt (Js.lit p) (Js.lit q) = true.
Proof.
  intros H. unfold Js.lt, Js.lit, Js.compare.
  rewrite <- Qred_compare. now rewrite (proj1 (Qlt_alt p q) H).
Qed.

Lemma lt_Fin (p q : Q) : (p < q)%Q -> Js.lt (Js.Fin p) (Js.Fin q) = true.
Proof.
  intros H. unfold Js.lt, Js.compare. now rewrite (proj1 (Qlt_alt p q) H).
Qed.

Lemma lt_Fin_lit (p q : Q) : (p < q)%Q -> Js.lt (Js.Fin p) (Js.lit q) = true.
Proof.
  intros H. apply lt_Fin. now rewrite Qred_correct.
Qed.

Lemma lt_lit_Fin (p q : Q) : (p < q)%Q -> Js.lt (Js.lit p) (Js.Fin q) = true.
Proof.
  intros H. apply lt_Fin. now rewrite Qred_correct.
Qed.

(** C6. For a range [min < max], [applyColorMap] gives the lookup table
    exactly nine control points: at [min], at [min + (max - min) * k/8] for
    k = 1 .. 7, and at [max], with the colours (0,0,1), (0,.2157,1),
    (0,.4275,1), (.0392,.6431,.9961), (.2745,.8157,.9255),
    (.9961,.6431,.4745), (1,.4275,.2745), (1,.2157,.1333), (1,0,0) in that
    order.  The first and the last are the points of the formula at k = 0
    and k = 8, the scalar values increase strictly, and the range of the
    mapper is set to [(min, max)].  For the range (0, 10) the scalar values
    are 0, 1.25, 2.5, 3.75, 5, 6.25, 7.5, 8.75, 10. *)
Theorem color_map_control_points :
  forall (mapper : Mapper) (min max : Q),
    (min < max)%Q ->
    let mapped := applyColorMap mapper (Js.Fin min, Js.Fin max) in
    let stop (k : Z) := Js.lit (min + (max - min) * (k # 8)) in
    lookupTable mapped
      = [ controlPoint (Js.Fin min) 0 0 10000;
          controlPoint (stop 1%Z) 0 2157 10000;
          controlPoint (stop 2%Z) 0 4275 10000;
          controlPoint (stop 3%Z) 392 6431 9961;
          controlPoint (stop 4%Z) 2745 8157 9255;
          controlPoint (stop 5%Z) 9961 6431 4745;
          controlPoint (stop 6%Z) 10000 4275 2745;
          controlPoint (stop 7%Z) 10000 2157 1333;
          controlPoint (Js.Fin max) 10000 0 0 ]
    /\ length (lookupTable mapped) = 9
    /\ Js.lit min = stop 0%Z
    /\ Js.lit max = stop 8%Z
    /\ increasing (map x (lookupTable mapped))
    /\ scalarRange mapped = (Js.Fin min, Js.Fin max)
    /\ map x (lookupTable (applyColorMap mapper (Js.lit 0, Js.lit 10)))
       = map Js.lit [0; 1.25; 2.5; 3.75; 5; 6.25; 7.5; 8.75; 10]%Q.
Proof.
  intros mapper min max Hlt mapped stop.
  assert (Hlut : lookupTable mapped
      = [ controlPoint (Js.Fin min) 0 0 10000;
          controlPoint (stop 1%Z) 0 2157 10000;
          controlPoint (stop 2%Z) 0 4275 10000;
          controlPoint (stop 3%Z) 392 6431 9961;
          controlPoint (stop 4%Z) 2745 8157 9255;
          controlPoint (stop 5%Z) 9961 6431 4745;
          controlPoint (stop 6%Z) 10000 4275 2745;
          controlPoint (stop 7%Z) 10000 2157 1333;
          controlPoint (Js.Fin max) 10000 0 0 ]).
  { subst mapped stop. unfold applyColorMap. cbn [lookupTable fst snd].
    rewrite (stop_eq min max 0.125 (1 # 8)), (stop_eq min max 0.25 (2 # 8)),
      (stop_eq min max 0.375 (3 # 8)), (stop_eq min max 0.5 (4 # 8)),
      (stop_eq min max 0.625 (5 # 8)), (stop_eq min max 0.75 (6 # 8)),
      (stop_eq min max 0.875 (7 # 8)) by reflexivity.
    reflexivity. }
  split; [exact Hlut|]. split; [now rewrite Hlut|].
  split; [|split; [|split; [|split]]].
  - subst stop. unfold Js.lit. f_equal. apply Qred_complete. ring.
  - subst stop. unfold Js.lit. f_equal. apply Qred_complete. field.
  - rewrite Hlut. subst stop. cbn [map x controlPoint increasing].
    repeat split;
      first [apply lt_lit | apply lt_Fin_lit | apply lt_lit_Fin]; lra.
  - reflexivity.
  - vm_compute. reflexivity.
Qed.

Lemma color_map_control_points_witness :
  increasing
    (map x (lookupTable (applyColorMap newMapper (Js.Fin 0, Js.Fin 10)))).
Proof.
  exact (proj1 (proj2 (proj2 (proj2 (proj2
           (color_map_control_points newMapper 0 10 eq_refl)))))).
Defined.

(** ** Properties of the threshold filter *)

Section Filter.

Context {A : Type}.

Lemma filterFrom_ext (keep keep' : nat -> bool) (index : nat) (array : list A) :
  (forall i, keep i = keep' i) ->
  filterFrom keep index array = filterFrom keep' index array.
Proof.
  intros H. revert index.
  induction array as [|v rest IH]; intros index; cbn; [reflexivity|].
  now rewrite H, IH.
Qed.

Lemma filterFrom_shift (keep : nat -> bool) (k index : nat) (array : list A) :
  filterFrom keep (k + index) array
    = filterFrom (fun i => keep (k + i)) index array.
Proof.
  revert index. induction array as [|v rest IH]; intros index; cbn; [reflexivity|].
  replace (S (k + index)) with (k + S index) by lia. now rewrite IH.
Qed.

Lemma filterFrom_none (index : nat) (array : list A) :
  filterFrom (fun _ => false) index array = [].
Proof.
  revert index. induction array as [|v rest IH]; intros index; cbn; auto.
Qed.

(** The first point is kept or dropped as a whole; the rest of the buffer is
    filtered by the rest of the mask. *)
Lemma filterFrom_point (keep : nat -> bool) (array : list A) :
  filterFrom (fun index => keep (index / 3)) 0 array
    = (if keep 0 then firstn 3 array else [])
      ++ filterFrom (fun index => keep (S (index / 3))) 0 (skipn 3 array).
Proof.
  assert (Hrest : forall rest : list A,
            filterFrom (fun index => keep (index / 3)) 3 rest
              = filterFrom (fun index => keep (S (index / 3))) 0 rest).
  { intros rest. rewrite (filterFrom_shift _ 3 0 rest).
    apply filterFrom_ext. intros i.
    replace (3 + i) with (1 * 3 + i) by lia.
    now rewrite Nat.div_add_l by lia. }
  destruct array as [|a [|b [|c rest]]]; cbn -[Nat.div];
    change (0 / 3) with 0; change (1 / 3) with 0; change (2 / 3) with 0;
    destruct (keep 0); cbn -[Nat.div]; rewrite ?Hrest; reflexivity.
Qed.

Lemma firstn_add (a b : nat) (l : list A) :
  firstn (a + b) l = firstn a l ++ firstn b (skipn a l).
Proof.
  revert l. induction a as [|a IH]; intros [|v l]; cbn; try reflexivity.
  - now rewrite firstn_nil.
  - now rewrite IH.
Qed.

Lemma coordinates_skip (pts : list A) (i : nat) :
  coordinates pts (S i) = coordinates (skipn 3 pts) i.
Proof.
  unfold coordinates. rewrite skipn_skipn. f_equal. f_equal. lia.
Qed.

End Filter.

Lemma filter_map_S (p : nat -> bool) (l : list nat) :
  filter p (map S l) = map S (filter (fun i => p (S i)) l).
Proof.
  induction l as [|i l IH]; cbn; [reflexivity|].
  destruct (p (S i)); cbn; now rewrite IH.
Qed.

Lemma flat_map_map_S {B : Type} (f : nat -> list B) (l : list nat) :
  flat_map f (map S l) = flat_map (fun i => f (S i)) l.
Proof.
  induction l as [|i l IH]; cbn; [reflexivity|]. now rewrite IH.
Qed.

Lemma passingCoordinates_cons {A : Type} (v : Js.number) (s : Js.Float32Array)
    (t : Js.number) (pts : list A) :
  passingCoordinates (v :: s) t pts
    = (if Js.gt v t then firstn 3 pts else [])
      ++ passingCoordinates s t (skipn 3 pts).
Proof.
  unfold passingCoordinates. cbn [length seq filter].
  rewrite <- seq_shift, filter_map_S.
  assert (Hrest : flat_map (coordinates pts)
                    (map S (filter (fun i => passes (v :: s) t (S i))
                              (seq 0 (length s))))
                  = flat_map (coordinates (skipn 3 pts))
                      (filter (passes s t) (seq 0 (length s)))).
  { rewrite flat_map_map_S. apply flat_map_ext. intros i.
    apply coordinates_skip. }
  change (passes (v :: s) t 0) with (Js.gt v t).
  destruct (Js.gt v t); cbn [flat_map]; rewrite Hrest; reflexivity.
Qed.

Lemma truthy_mask (s : Js.Float32Array) (t : Js.number) (i : nat) :
  Js.truthy (nth_error (thresholdMask s t) i) = passes s t i.
Proof.
  unfold thresholdMask, passes. rewrite nth_error_map.
  destruct (nth_error s i) as [v|]; cbn; [|reflexivity].
  now destruct (Js.gt v t).
Qed.

Lemma filter_is_passingCoordinates {A : Type} (s : Js.Float32Array)
    (t : Js.number) (pts : list A) :
  filterFrom (fun index => Js.truthy (nth_error (thresholdMask s t) (index / 3)))
             0 pts
    = passingCoordinates s t pts.
Proof.
  rewrite (filterFrom_ext _ (fun index => passes s t (index / 3)))
    by (intros i; apply truthy_mask).
  revert pts. induction s as [|v s IH]; intros pts.
  - rewrite (filterFrom_ext _ (fun _ => false)).
    + apply filterFrom_none.
    + intros i. unfold passes. now destruct (i / 3).
  - rewrite filterFrom_point, passingCoordinates_cons.
    change (passes (v :: s) t 0) with (Js.gt v t). f_equal.
    rewrite <- IH. now apply filterFrom_ext.
Qed.

Lemma passingCoordinates_all {A : Type} (s : Js.Float32Array) (t : Js.number)
    (pts : list A) :
  (forall v, In v s -> Js.gt v t = true) ->
  passingCoordinates s t pts = firstn (3 * length s) pts.
Proof.
  revert pts. induction s as [|v s IH]; intros pts Hall.
  - reflexivity.
  - rewrite passingCoordinates_cons, (Hall v (or_introl eq_refl)), IH.
    + cbn [length]. replace (3 * S (length s)) with (3 + 3 * length s) by lia.
      now rewrite firstn_add.
    + intros w Hw. apply Hall. now right.
Qed.

Lemma passingCoordinates_none {A : Type} (s : Js.Float32Array) (t : Js.number)
    (pts : list A) :
  (forall v, In v s -> Js.gt v t = false) ->
  passingCoordinates s t pts = [].
Proof.
  revert pts. induction s as [|v s IH]; intros pts Hnone.
  - reflexivity.
  - rewrite passingCoordinates_cons, (Hnone v (or_introl eq_refl)), IH.
    + reflexivity.
    + intros w Hw. apply Hnone. now right.
Qed.

(** C7. The mask of the threshold filter marks the point [i] exactly when
    its scalar value is strictly above the threshold, and the filter gives
    the mapper a point buffer that is exactly the coordinate triples of the
    marked points in their original order.  Hence, when every coordinate
    belongs to a point with a scalar value and the threshold is below every
    scalar value, the filtered buffer is the original one; and when no
    scalar value is above the threshold, it is empty. *)
Theorem threshold_keeps_passing_points :
  forall (mapper : Mapper) (polyData : PolyData) (array : DataArray)
         (thresholdValue : Js.number),
    inputData mapper = Some polyData ->
    scalars polyData = Some array ->
    let s := values array in
    let pts := points polyData in
    let filtered := passingCoordinates s thresholdValue pts in
    (forall i, Js.truthy (nth_error (thresholdMask s thresholdValue) i) = true
               <-> exists v, nth_error s i = Some v
                             /\ Js.gt v thresholdValue = true)
    /\ (exists mapper',
          enableThreshold mapper thresholdValue = Returns mapper'
          /\ option_map points (inputData mapper') = Some filtered)
    /\ ((forall v, In v s -> Js.gt v thresholdValue = true) ->
        length pts <= 3 * length s -> filtered = pts)
    /\ ((forall v, In v s -> Js.gt v thresholdValue = false) ->
        filtered = []).
Proof.
  intros mapper polyData array t Hin Hsc s pts filtered.
  split; [|split; [|split]].
  - intros i. rewrite truthy_mask. unfold passes.
    destruct (nth_error s i) as [v|]; split.
    + intros H. now exists v.
    + now intros (w & [= <-] & H).
    + discriminate.
    + now intros (w & [=] & _).
  - unfold enableThreshold. rewrite Hin, Hsc. eexists. split; [reflexivity|].
    cbn. f_equal. apply filter_is_passingCoordinates.
  - intros Hall Hlen. subst filtered.
    rewrite passingCoordinates_all by assumption. now apply firstn_all2.
  - intros Hnone. now apply passingCoordinates_none.
Qed.

Lemma threshold_keeps_passing_points_witness :
  exists mapper',
    enableThreshold quadMapper (Js.ofZ 2) = Returns mapper'
    /\ option_map points (inputData mapper')
       = Some (map Js.ofZ [1; 1; 0;  0; 1; 0]%Z).
Proof.
  exact (proj1 (proj2
           (threshold_keeps_passing_points quadMapper _ _ (Js.ofZ 2)
              eq_refl eq_refl))).
Defined.

(** C8. When the threshold filter returns, the mesh it installs in the
    mapper is a new one of which only the point buffer was set: it has no
    triangle and no scalar array, so nothing of the triangles and scalars of
    the original mesh is remapped or rebuilt for the filtered points; the
    installed mesh is the same whatever triangles the original had. *)
Theorem threshold_rebuilds_points_only :
  forall (mapper mapper' : Mapper) (thresholdValue : Js.number),
    enableThreshold mapper thresholdValue = Returns mapper' ->
    exists polyData array,
      inputData mapper = Some polyData
      /\ scalars polyData = Some array
      /\ inputData mapper'
         = Some {| points := passingCoordinates (values array) thresholdValue
                               (points polyData);
                   polys := [];
                   scalars := None |}
      /\ forall triangles : Js.Uint32Array,
           enableThreshold (setInputData mapper (setPolys polyData triangles))
             thresholdValue = Returns mapper'.
Proof.
  intros mapper mapper' t. unfold enableThreshold.
  destruct (inputData mapper) as [polyData|] eqn:Hin; [|discriminate].
  destruct (scalars polyData) as [array|] eqn:Hsc; [|discriminate].
  intros [= <-]. exists polyData, array.
  split; [reflexivity|]. split; [exact Hsc|]. split.
  - cbn. unfold setPoints; cbn. now rewrite filter_is_passingCoordinates.
  - intros triangles. cbn. now rewrite Hsc.
Qed.

Lemma threshold_rebuilds_points_only_witness :
  exists polyData array,
    inputData quadMapper = Some polyData
    /\ scalars polyData = Some array
    /\ inputData (setInputData quadMapper
                    (setPoints newPolyData (map Js.ofZ [1; 1; 0;  0; 1; 0]%Z)))
       = Some {| points := passingCoordinates (values array) (Js.ofZ 2)
                             (points polyData);
                 polys := [];
                 scalars := None |}
    /\ forall triangles : Js.Uint32Array,
         enableThreshold (setInputData quadMapper (setPolys polyData triangles))
           (Js.ofZ 2)
         = Returns (setInputData quadMapper
                      (setPoints newPolyData (map Js.ofZ [1; 1; 0;  0; 1; 0]%Z))).
Proof.
  exact (threshold_rebuilds_points_only quadMapper _ (Js.ofZ 2) eq_refl).
Defined.

(** C10. Once the threshold filter has returned, the mesh installed in the
    mapper has no scalar array, and a second call on the same actor, with
    any threshold, throws a [TypeError] instead of filtering again. *)
Theorem second_threshold_throws :
  forall (mapper mapper' : Mapper) (first second : Js.number),
    enableThreshold mapper first = Returns mapper' ->
    (exists filteredPolyData,
       inputData mapper' = Some filteredPolyData
       /\ scalars filteredPolyData = None)
    /\ enableThreshold mapper' second = Throws TypeError.
Proof.
  intros mapper mapper' t1 t2. unfold enableThreshold at 1.
  destruct (inputData mapper) as [polyData|]; [|discriminate].
  destruct (scalars polyData) as [array|]; [|discriminate].
  intros [= <-]. split.
  - eexists. split; reflexivity.
  - reflexivity.
Qed.

Lemma second_threshold_throws_witness :
  (exists filteredPolyData,
     inputData (setInputData quadMapper
                  (setPoints newPolyData (map Js.ofZ [1; 1; 0;  0; 1; 0]%Z)))
       = Some filteredPolyData
     /\ scalars filteredPolyData = None)
  /\ enableThreshold
       (setInputData quadMapper
          (setPoints newPolyData (map Js.ofZ [1; 1; 0;  0; 1; 0]%Z)))
       (Js.ofZ 0)
     = Throws TypeError.
Proof.
  exact (second_threshold_throws quadMapper _ (Js.ofZ 2) (Js.ofZ 0) eq_refl).
Defined.

(** ** Properties of the assembly *)





(** ** Further properties of [extractCells] *)

(** X1. A triangle cell (tag 5) appends the marker 3 and then its whole
    window, whatever the length of the window; when the window is
    [a, b, c] this is exactly the one triangle (a, b, c). *)
Theorem triangle_as_it_is :
  forall (connectivityArray offsetsArray : list Js.number) (i : nat)
         (cellType : Js.number) (st : LoopState),
    Js.strictEq cellType VTK_TRIANGLE = true ->
    let window := Js.slice connectivityArray (previousOffset st)
                    (nth_error offsetsArray i) in
    loopBody connectivityArray offsetsArray i cellType st
      = Returns {| cells := cells st ++ three :: map Some window;
                   previousOffset := nth_error offsetsArray i |}
    /\ (forall a b c : Js.number,
          window = [a; b; c] ->
          appends connectivityArray offsetsArray i cellType st
            [ (Some a, Some b, Some c) ]).
Proof.
  intros conn offs i cellType st Htag window.
  assert (Hbody : loopBody conn offs i cellType st
                  = Returns {| cells := cells st ++ three :: map Some window;
                               previousOffset := nth_error offs i |}).
  { subst window. unfold loopBody, pushCell. now rewrite Htag. }
  split; [exact Hbody|].
  intros a b c Hwin. unfold appends. rewrite Hbody, Hwin. reflexivity.
Qed.

Lemma triangle_as_it_is_witness :
  loopBody (map Js.ofZ [2; 5; 9]%Z) [Js.ofZ 3] 0 (Js.ofZ 5) start
    = Returns {| cells := map (fun z => Some (Js.ofZ z)) [3; 2; 5; 9]%Z;
                 previousOffset := Some (Js.ofZ 3) |}.
Proof.
  exact (proj2 (triangle_as_it_is (map Js.ofZ [2; 5; 9]%Z) [Js.ofZ 3] 0
                  (Js.ofZ 5) start eq_refl)
           (Js.ofZ 2) (Js.ofZ 5) (Js.ofZ 9) eq_refl).
Defined.

(** A triangle cell with four points: five entries, and the buffer is no
    longer a sequence of triangles. *)
Example triangle_with_four_points :
  extractCells (cellsDocument "0 1 2 3" "4" "5") = Returns [3; 0; 1; 2; 3]%Z
  /\ framed [3; 0; 1; 2; 3]%Z = false.
Proof. split; reflexivity. Qed.

Lemma Returns_inj {X : Type} (v w : X) : Returns v = Returns w -> v = w.
Proof. now intros [= ->]. Qed.

Lemma encode_app (ts ts' : list (Js.Value * Js.Value * Js.Value)) :
  encode (ts ++ ts') = encode ts ++ encode ts'.
Proof. unfold encode. apply flat_map_app. Qed.

Lemma flat_map_encoded {X : Type} (f : X -> list Js.Value) (l : list X) :
  (forall v, exists ts, f v = encode ts) ->
  exists ts, flat_map f l = encode ts.
Proof.
  intros Hf. induction l as [|v l [ts IH]]; cbn.
  - now exists [].
  - destruct (Hf v) as [ts' Hv]. exists (ts' ++ ts).
    now rewrite Hv, IH, encode_app.
Qed.

Lemma pushQuadFace_encoded (cellIndices : list Js.number) (face : list nat) :
  exists ts, pushQuadFace cellIndices face = encode ts.
Proof.
  exists (diagonalSplit (corner cellIndices face 0) (corner cellIndices face 1)
            (corner cellIndices face 2) (corner cellIndices face 3)).
  reflexivity.
Qed.

Lemma pushFace_encoded (cellIndices : list Js.number) (face : list nat) :
  exists ts, pushFace cellIndices face = encode ts.
Proof.
  unfold pushFace. destruct (length face =? 3) eqn:Hlen.
  - destruct face as [|p [|q [|r [|? ?]]]]; try discriminate Hlen.
    now exists [ (at_ cellIndices p, at_ cellIndices q, at_ cellIndices r) ].
  - apply pushQuadFace_encoded.
Qed.

(** What a cell pushes is a sequence of whole triangles, unless it is a
    triangle cell whose window has not three points. *)
Lemma pushCell_encoded (cellIndices : list Js.number)
    (cellType numPoints : Js.number) (pushed : list Js.Value) :
  (Js.strictEq cellType VTK_TRIANGLE = true -> length cellIndices = 3) ->
  pushCell cellIndices cellType numPoints = Returns pushed ->
  exists ts, pushed = encode ts.
Proof.
  intros Hthree. unfold pushCell.
  destruct (Js.strictEq cellType VTK_TRIANGLE).
  { destruct cellIndices as [|p [|q [|r [|? ?]]]];
      try (specialize (Hthree eq_refl); discriminate Hthree).
    intros [= <-]. now exists [ (Some p, Some q, Some r) ]. }
  destruct (Js.strictEq cellType VTK_QUAD).
  { intros [= <-].
    now exists (diagonalSplit (at_ cellIndices 0) (at_ cellIndices 1)
                  (at_ cellIndices 2) (at_ cellIndices 3)). }
  destruct (Js.strictEq cellType VTK_TETRA).
  { intros [= <-].
    now exists [ (at_ cellIndices 0, at_ cellIndices 1, at_ cellIndices 2);
                 (at_ cellIndices 0, at_ cellIndices 2, at_ cellIndices 3);
                 (at_ cellIndices 0, at_ cellIndices 3, at_ cellIndices 1);
                 (at_ cellIndices 1, at_ cellIndices 3, at_ cellIndices 2) ]. }
  destruct (Js.strictEq cellType VTK_HEXAHEDRON).
  { intros H. apply Returns_inj in H. subst pushed.
    apply flat_map_encoded, pushQuadFace_encoded. }
  destruct (Js.strictEq cellType VTK_WEDGE).
  { intros H. apply Returns_inj in H. subst pushed.
    apply flat_map_encoded, pushFace_encoded. }
  destruct (Js.strictEq cellType VTK_PYRAMID).
  { intros H. apply Returns_inj in H. subst pushed.
    apply flat_map_encoded, pushFace_encoded. }
  destruct (Js.ge numPoints (Js.ofZ 3)).
  - destruct (Js.forCount _) as [n|]; [|discriminate].
    intros H. apply Returns_inj in H. subst pushed.
    apply flat_map_encoded. intros j.
    now exists [ (at_ cellIndices 0, at_ cellIndices (j + 1),
                  at_ cellIndices (j + 2)) ].
  - intros [= <-]. now exists [].
Qed.

Lemma forCells_encoded (connectivityArray offsetsArray typesLeft : list Js.number)
    (i : nat) (st st' : LoopState) :
  threePointTriangles connectivityArray offsetsArray typesLeft i
    (previousOffset st) = true ->
  (exists ts, cells st = encode ts) ->
  forCells connectivityArray offsetsArray typesLeft i st = Returns st' ->
  exists ts, cells st' = encode ts.
Proof.
  revert i st. induction typesLeft as [|cellType rest IH]; intros i st.
  - intros _ Hst [= <-]. exact Hst.
  - cbn [threePointTriangles forCells]. intros Hthree [ts Hst].
    apply andb_prop in Hthree. destruct Hthree as [Hcell Hrest].
    unfold loopBody.
    destruct (pushCell _ cellType _) as [pushed| |] eqn:Hpush;
      cbn [bind]; try discriminate.
    apply (IH (S i)); cbn [previousOffset cells]; [exact Hrest|].
    assert (Hwin : Js.strictEq cellType VTK_TRIANGLE = true ->
                   length (Js.slice connectivityArray (previousOffset st)
                             (nth_error offsetsArray i)) = 3).
    { intros Htag. rewrite Htag in Hcell. cbn in Hcell.
      now apply Nat.eqb_eq. }
    destruct (pushCell_encoded _ _ _ _ Hwin Hpush) as [ts' ->].
    exists (ts ++ ts'). now rewrite Hst, encode_app.
Qed.

Lemma framed_encode (ts : list (Js.Value * Js.Value * Js.Value)) :
  framed (Js.newUint32Array (encode ts)) = true.
Proof.
  induction ts as [|[[p q] r] ts IH]; [reflexivity|].
  unfold encode, Js.newUint32Array in *. cbn [flat_map app map].
  cbn [framed]. now rewrite IH.
Qed.

(** X2. When every triangle cell (tag 5) has a window of three points, the
    buffer that [extractCells] returns is a sequence of whole triangles: the
    marker 3 followed by three indices, up to the end. *)
Theorem returned_buffer_is_framed :
  forall (xmlDoc : XMLDocument) (connectivityTag offsetsTag typesTag : Element)
         (buffer : Js.Uint32Array),
    querySelector xmlDoc (CellsDataArray "connectivity") = Some connectivityTag ->
    querySelector xmlDoc (CellsDataArray "offsets") = Some offsetsTag ->
    querySelector xmlDoc (CellsDataArray "types") = Some typesTag ->
    threePointTriangles (Js.numbers (textContent connectivityTag))
      (Js.numbers (textContent offsetsTag)) (Js.numbers (textContent typesTag))
      0 (Some (Js.ofZ 0)) = true ->
    extractCells xmlDoc = Returns buffer ->
    framed buffer = true
    /\ exists triangles, length buffer = 4 * triangles.
Proof.
  intros xmlDoc c o t buffer Hc Ho Ht Hthree. unfold extractCells.
  rewrite Hc, Ho, Ht.
  destruct (forCells _ _ _ 0 _) as [st'| |] eqn:Hloop; cbn [bind];
    try discriminate.
  intros [= <-].
  destruct (forCells_encoded _ _ _ 0 start st' Hthree
              (ex_intro _ [] eq_refl) Hloop) as [ts ->].
  split; [apply framed_encode|].
  exists (length ts). unfold Js.newUint32Array, encode.
  rewrite length_map. clear. induction ts as [|[[p q] r] ts IH]; cbn; lia.
Qed.

Lemma returned_buffer_is_framed_witness :
  framed [3; 0; 1; 2;  3; 0; 2; 3]%Z = true
  /\ exists triangles, length [3; 0; 1; 2;  3; 0; 2; 3]%Z = 4 * triangles.
Proof.
  exact (returned_buffer_is_framed twoFieldDocument _ _ _ _
           eq_refl eq_refl eq_refl eq_refl eq_refl).
Defined.

Lemma In_firstn {X : Type} (n : nat) (l : list X) (v : X) :
  In v (firstn n l) -> In v l.
Proof.
  revert l. induction n as [|n IH]; intros [|w l]; cbn; try tauto.
  intros [-> | H]; [now left | right; now apply IH].
Qed.

Lemma In_skipn {X : Type} (n : nat) (l : list X) (v : X) :
  In v (skipn n l) -> In v l.
Proof.
  revert l. induction n as [|n IH]; intros [|w l]; cbn; try tauto.
  intros H. right. now apply IH.
Qed.

Lemma In_slice {X : Type} (array : list X) (start end_ : Js.Value) (v : X) :
  In v (Js.slice array start end_) -> In v array.
Proof. unfold Js.slice. intros H. eapply In_skipn, In_firstn, H. Qed.

Lemma fromWindow_at (window : list Js.number) (k : nat) :
  fromWindow window (at_ window k).
Proof.
  unfold fromWindow, at_. destruct (nth_error window k) as [n|] eqn:E.
  - right. right. exists n. split; [reflexivity|]. eapply nth_error_In, E.
  - now right; left.
Qed.

Lemma fromWindow_corner (window : list Js.number) (face : list nat) (k : nat) :
  fromWindow window (corner window face k).
Proof.
  unfold corner. destruct (nth_error face k).
  - apply fromWindow_at.
  - now right; left.
Qed.

(** Goes through a pushed list, entry by entry. *)
Ltac each_fromWindow :=
  repeat (apply Forall_cons;
          [first [apply fromWindow_corner | apply fromWindow_at | now left]|]);
  apply Forall_nil.

Lemma fromWindow_pushQuadFace (window : list Js.number) (face : list nat) :
  Forall (fromWindow window) (pushQuadFace window face).
Proof. unfold pushQuadFace. each_fromWindow. Qed.

Lemma fromWindow_pushFace (window : list Js.number) (face : list nat) :
  Forall (fromWindow window) (pushFace window face).
Proof.
  unfold pushFace. destruct (length face =? 3).
  - constructor; [now left|]. apply Forall_map, Forall_forall.
    intros k _. apply fromWindow_at.
  - apply fromWindow_pushQuadFace.
Qed.

(** Whatever a cell pushes is the marker, [undefined] or a number of its
    window. *)
Lemma fromWindow_pushCell (window : list Js.number)
    (cellType numPoints : Js.number) (pushed : list Js.Value) :
  pushCell window cellType numPoints = Returns pushed ->
  Forall (fromWindow window) pushed.
Proof.
  unfold pushCell.
  repeat match goal with
         | |- context [if ?c then _ else _] => destruct c
         | |- context [match Js.forCount ?n with _ => _ end] =>
             destruct (Js.forCount n)
         end;
    intros H; try discriminate H; apply Returns_inj in H; subst pushed.
  - constructor; [now left|]. apply Forall_map, Forall_forall.
    intros n Hn. right. right. now exists n.
  - each_fromWindow.
  - each_fromWindow.
  - apply Forall_flat_map, Forall_forall. intros face _.
    apply fromWindow_pushQuadFace.
  - apply Forall_flat_map, Forall_forall. intros face _.
    apply fromWindow_pushFace.
  - apply Forall_flat_map, Forall_forall. intros face _.
    apply fromWindow_pushFace.
  - apply Forall_flat_map, Forall_forall. intros j _. each_fromWindow.
  - constructor.
Qed.

Lemma fromWindow_slice (array : list Js.number) (start end_ : Js.Value)
    (v : Js.Value) :
  fromWindow (Js.slice array start end_) v -> fromWindow array v.
Proof.
  intros [H | [H | (n & H & Hin)]]; [now left | now right; left |].
  right. right. exists n. split; [exact H|]. eapply In_slice, Hin.
Qed.

Lemma fromWindow_forCells (connectivityArray offsetsArray typesLeft : list Js.number)
    (i : nat) (st st' : LoopState) :
  Forall (fromWindow connectivityArray) (cells st) ->
  forCells connectivityArray offsetsArray typesLeft i st = Returns st' ->
  Forall (fromWindow connectivityArray) (cells st').
Proof.
  revert i st. induction typesLeft as [|cellType rest IH]; intros i st Hst.
  - now intros [= <-].
  - cbn [forCells]. unfold loopBody.
    destruct (pushCell _ cellType _) as [pushed| |] eqn:Hpush;
      cbn [bind]; try discriminate.
    apply IH. cbn [cells]. apply Forall_app. split; [exact Hst|].
    apply fromWindow_pushCell in Hpush.
    eapply Forall_impl; [|exact Hpush].
    intros v. apply fromWindow_slice.
Qed.

(** X3. [extractCells] never makes up a point index: every entry of the
    buffer it returns is the marker 3, the 0 that stands for [undefined],
    or the unsigned 32-bit value of a number of the connectivity array. *)
Theorem returned_entries_come_from_connectivity :
  forall (xmlDoc : XMLDocument) (buffer : Js.Uint32Array),
    extractCells xmlDoc = Returns buffer ->
    exists connectivityTag,
      querySelector xmlDoc (CellsDataArray "connectivity") = Some connectivityTag
      /\ forall z : Z,
           In z buffer ->
           z = 3%Z \/ z = 0%Z
           \/ exists n, In n (Js.numbers (textContent connectivityTag))
                        /\ z = Js.ToUint32 n.
Proof.
  intros xmlDoc buffer. unfold extractCells.
  destruct (querySelector xmlDoc (CellsDataArray "connectivity")) as [c|];
    [|discriminate].
  destruct (querySelector xmlDoc (CellsDataArray "offsets")) as [o|];
    [|discriminate].
  destruct (querySelector xmlDoc (CellsDataArray "types")) as [t|];
    [|discriminate].
  destruct (forCells _ _ _ 0 _) as [st'| |] eqn:Hloop; cbn [bind];
    try discriminate.
  intros H. apply Returns_inj in H. subst buffer.
  exists c. split; [reflexivity|].
  apply fromWindow_forCells in Hloop; [|constructor].
  intros z Hz. unfold Js.newUint32Array in Hz. apply in_map_iff in Hz.
  destruct Hz as (v & <- & Hv).
  rewrite Forall_forall in Hloop.
  destruct (Hloop v Hv) as [-> | [-> | (n & -> & Hn)]].
  - now left.
  - now right; left.
  - right. right. now exists n.
Qed.

Lemma returned_entries_come_from_connectivity_witness :
  exists connectivityTag,
    querySelector (cellsDocument "7 8 9" "5" "1") (CellsDataArray "connectivity")
      = Some connectivityTag
    /\ forall z : Z,
         In z [3; 7; 8; 9;  3; 7; 9; 0;  3; 7; 0; 0]%Z ->
         z = 3%Z \/ z = 0%Z
         \/ exists n, In n (Js.numbers (textContent connectivityTag))
                      /\ z = Js.ToUint32 n.
Proof.
  exact (returned_entries_come_from_connectivity
           (cellsDocument "7 8 9" "5" "1") _ eq_refl).
Defined.

(** ** Further properties of the scalar fields *)

Lemma matches_named (el : Element) (n : string) :
  matches (PointDataDataArray (Some n)) el
    = matches (PointDataDataArray None) el
      && match getAttribute el "Name" with
         | Some a => String.eqb a n
         | None => false
         end.
Proof. unfold matches; cbn. now rewrite andb_true_r. Qed.

Lemma matches_named_true (el : Element) (n : string) :
  matches (PointDataDataArray (Some n)) el = true
  <-> matches (PointDataDataArray None) el = true
      /\ getAttribute el "Name" = Some n.
Proof.
  rewrite matches_named, andb_true_iff.
  destruct (getAttribute el "Name") as [a|].
  - rewrite String.eqb_eq. split; intros [H1 H2]; split; congruence.
  - split; intros [_ H]; discriminate H.
Qed.

(** X5. For a name that the selector takes literally: the name is among
    the names [getAllScalarFields] lists exactly when [extractScalars]
    finds an array for it, and the array found carries that name and comes
    from an array of point data of that name in the document. *)
Theorem listed_fields_are_found :
  forall (xmlDoc : XMLDocument) (n : string),
    plainName n = true ->
    (In (Some n) (getAllScalarFields xmlDoc)
     <-> exists array, extractScalars xmlDoc (Some (Some n)) = Some array)
    /\ (forall array,
          extractScalars xmlDoc (Some (Some n)) = Some array ->
          name array = Some n
          /\ exists scalarTag,
               In scalarTag xmlDoc
               /\ matches (PointDataDataArray None) scalarTag = true
               /\ getAttribute scalarTag "Name" = Some n).
Proof.
  intros xmlDoc n _. unfold getAllScalarFields, extractScalars,
    querySelectorAll, querySelector. cbn [interpolate]. split; [split|].
  - intros Hin. apply in_map_iff in Hin. destruct Hin as (el & Hname & Hel).
    apply filter_In in Hel. destruct Hel as [Hel Hmatch].
    destruct (find (matches (PointDataDataArray (Some n))) xmlDoc) eqn:Hfind.
    + now eexists.
    + apply (find_none _ _ Hfind) in Hel.
      assert (matches (PointDataDataArray (Some n)) el = true)
        by now apply matches_named_true.
      congruence.
  - intros [array Harray].
    destruct (find (matches (PointDataDataArray (Some n))) xmlDoc) as [el|]
      eqn:Hfind; [|discriminate].
    apply find_some in Hfind. destruct Hfind as [Hel Hmatch].
    apply matches_named_true in Hmatch. destruct Hmatch as [Hmatch Hname].
    apply in_map_iff. exists el. split; [exact Hname|].
    apply filter_In. now split.
  - intros array.
    destruct (find (matches (PointDataDataArray (Some n))) xmlDoc) as [el|]
      eqn:Hfind; [|discriminate].
    apply find_some in Hfind. destruct Hfind as [Hel Hmatch].
    apply matches_named_true in Hmatch. destruct Hmatch as [Hmatch Hname].
    intros [= <-]. cbn. split; [exact Hname|]. now exists el.
Qed.

Lemma listed_fields_are_found_witness :
  In (Some "p"%string) (getAllScalarFields twoFieldDocument)
  <-> exists array,
        extractScalars twoFieldDocument (Some (Some "p"%string)) = Some array.
Proof.
  exact (proj1 (listed_fields_are_found twoFieldDocument "p" eq_refl)).
Defined.

Lemma find_filter_head {X : Type} (f : X -> bool) (l : list X) (v : X) :
  find f l = Some v -> exists rest, filter f l = v :: rest.
Proof.
  induction l as [|w l IH]; cbn; [discriminate|].
  destruct (f w).
  - intros [= ->]. now eexists.
  - exact IH.
Qed.

Lemma find_narrower {X : Type} (f g : X -> bool) (l : list X) (v : X) :
  (forall w, g w = true -> f w = true) ->
  find f l = Some v -> g v = true -> find g l = Some v.
Proof.
  intros Hgf. induction l as [|w l IH]; cbn; [discriminate|].
  destruct (f w) eqn:Hf.
  - intros [= ->] Hg. now rewrite Hg.
  - intros Hfind Hg. destruct (g w) eqn:Hgw.
    + apply Hgf in Hgw. congruence.
    + now apply IH.
Qed.

(** X6. Without a [scalarField] option, or with an empty one,
    [addVTUToScene] takes its scalars from the first array of point data,
    when that array has a name and the selector takes the name literally. *)
Theorem default_field_is_the_first :
  forall (xmlDoc : XMLDocument) (options : Options) (first : Element)
         (n : string),
    scalarField options = None \/ scalarField options = Some EmptyString ->
    querySelector xmlDoc (PointDataDataArray None) = Some first ->
    getAttribute first "Name" = Some n ->
    plainName n = true ->
    selectScalar options (getAllScalarFields xmlDoc) = Some (Some n)
    /\ chosenField xmlDoc options = Some first.
Proof.
  intros xmlDoc options first n Hopt Hfirst Hname _.
  assert (Hsel : selectScalar options (getAllScalarFields xmlDoc)
                 = Some (Some n)).
  { unfold selectScalar, getAllScalarFields, querySelectorAll.
    destruct (find_filter_head _ _ _ Hfirst) as [rest ->].
    cbn [map nth_error]. rewrite Hname.
    now destruct Hopt as [-> | ->]. }
  split; [exact Hsel|].
  unfold chosenField. rewrite Hsel. cbn [interpolate].
  apply (find_narrower (matches (PointDataDataArray None))); [|exact Hfirst|].
  - intros w Hw. now apply matches_named_true in Hw.
  - now apply matches_named_true; split;
      [apply (find_some _ _ Hfirst)|].
Qed.

Lemma default_field_is_the_first_witness :
  selectScalar {| scalarField := None |} (getAllScalarFields twoFieldDocument)
    = Some (Some "T"%string)
  /\ chosenField twoFieldDocument {| scalarField := None |}
     = Some (dataArray "PointData" "T" "4 1 3 2").
Proof.
  exact (default_field_is_the_first twoFieldDocument {| scalarField := None |}
           _ "T" (or_introl eq_refl) eq_refl eq_refl eq_refl).
Defined.

Lemma no_field_no_choice (xmlDoc : XMLDocument) (scalarName : FieldName) :
  getAllScalarFields xmlDoc = [] ->
  extractScalars xmlDoc scalarName = None.
Proof.
  unfold getAllScalarFields, querySelectorAll, extractScalars, querySelector.
  intros Hnone. apply map_eq_nil in Hnone.
  destruct (find _ xmlDoc) as [el|] eqn:Hfind; [|reflexivity].
  apply find_some in Hfind. destruct Hfind as [Hel Hmatch].
  apply matches_named_true in Hmatch. destruct Hmatch as [Hmatch _].
  assert (Hin : In el (filter (matches (PointDataDataArray None)) xmlDoc))
    by now apply filter_In.
  rewrite Hnone in Hin. destruct Hin.
Qed.

(** X7. A document without any array of point data cannot be assembled:
    for a field name that the selector takes literally, [extractScalars]
    finds nothing and [addVTUToScene] does not return a scene. *)
Theorem no_point_data_no_scene :
  forall (xmlDoc : XMLDocument) (options : Options),
    getAllScalarFields xmlDoc = [] ->
    plainName (interpolate (selectScalar options (getAllScalarFields xmlDoc)))
      = true ->
    extractScalars xmlDoc (selectScalar options (getAllScalarFields xmlDoc))
      = None
    /\ forall scene, addVTUToScene xmlDoc options <> Returns scene.
Proof.
  intros xmlDoc options Hnone _. unfold addVTUToScene.
  rewrite (no_field_no_choice _ _ Hnone). split; [reflexivity|].
  intros scene.
  destruct (extractPoints xmlDoc); cbn [bind]; try discriminate.
  destruct (extractCells xmlDoc); cbn [bind]; discriminate.
Qed.

Lemma no_point_data_no_scene_witness :
  extractScalars
    (dataArray "Points" "Points" "0 0 0 1 0 0 0 1 0"
     :: cellsDocument "0 1 2" "3" "5")
    (Some (Some "T"%string))
  = None
  /\ ~ (exists scene,
          addVTUToScene
            (dataArray "Points" "Points" "0 0 0 1 0 0 0 1 0"
             :: cellsDocument "0 1 2" "3" "5")
            {| scalarField := Some "T"%string |}
          = Returns scene).
Proof.
  destruct (no_point_data_no_scene
              (dataArray "Points" "Points" "0 0 0 1 0 0 0 1 0"
               :: cellsDocument "0 1 2" "3" "5")
              {| scalarField := Some "T"%string |} eq_refl eq_refl)
    as [Hnone Hscene].
  split; [exact Hnone|]. intros [scene H]. exact (Hscene scene H).
Defined.

(** ** Further properties of the assembly *)

(** What a returned scene is made of. *)
Lemma addVTUToScene_Returns (xmlDoc : XMLDocument) (options : Options)
    (scene : Scene) :
  addVTUToScene xmlDoc options = Returns scene ->
  exists pts triangles scalarTag,
    extractPoints xmlDoc = Returns pts
    /\ extractCells xmlDoc = Returns triangles
    /\ chosenField xmlDoc options = Some scalarTag
    /\ let array := {| name := getAttribute scalarTag "Name";
                       values := Js.numbers (textContent scalarTag) |} in
       let mesh := {| points := pts; polys := triangles;
                      scalars := Some array |} in
       scene = {| polyData := mesh;
                  actor := applyColorMap (setInputData newMapper mesh)
                             (Js.Math_min (values array),
                              Js.Math_max (values array));
                  scalarFields := getAllScalarFields xmlDoc |}.
Proof.
  unfold addVTUToScene, extractScalars. fold (chosenField xmlDoc options).
  destruct (extractPoints xmlDoc) as [pts| |]; cbn [bind]; try discriminate.
  destruct (extractCells xmlDoc) as [triangles| |]; cbn [bind];
    try discriminate.
  destruct (chosenField xmlDoc options) as [scalarTag|]; [|discriminate].
  intros H. apply Returns_inj in H. subst scene.
  now exists pts, triangles, scalarTag.
Qed.

(** X8. A scene is returned only for a complete document: when
    [addVTUToScene] returns, for a field name that the selector takes
    literally, the points array, the three cell arrays and the chosen field
    are in the document.  An absent points array gives a [TypeError]
    whatever else is absent.  In a returned scene the mapper of the actor
    has the returned mesh as its input, and the field names are those of
    [getAllScalarFields]. *)
Theorem returned_scene_is_complete :
  forall (xmlDoc : XMLDocument) (options : Options),
    (plainName (interpolate (selectScalar options (getAllScalarFields xmlDoc)))
       = true ->
     forall scene,
       addVTUToScene xmlDoc options = Returns scene ->
       complete xmlDoc options)
    /\ (querySelector xmlDoc PointsDataArray = None ->
        addVTUToScene xmlDoc options = Throws TypeError)
    /\ (forall scene,
          addVTUToScene xmlDoc options = Returns scene ->
          inputData (actor scene) = Some (polyData scene)
          /\ scalarFields scene = getAllScalarFields xmlDoc).
Proof.
  intros xmlDoc options. split; [|split].
  - intros _ scene Hscene. unfold complete.
    destruct (addVTUToScene_Returns _ _ _ Hscene)
      as (pts & triangles & scalarTag & Hpts & Hcells & Hfield & _).
    unfold extractPoints in Hpts. unfold extractCells in Hcells.
    rewrite Hfield.
    destruct (querySelector xmlDoc PointsDataArray); [|discriminate].
    destruct (querySelector xmlDoc (CellsDataArray "connectivity"));
      [|discriminate].
    destruct (querySelector xmlDoc (CellsDataArray "offsets"));
      [|discriminate].
    destruct (querySelector xmlDoc (CellsDataArray "types"));
      [|discriminate].
    repeat split; discriminate.
  - intros Hp. unfold addVTUToScene, extractPoints. now rewrite Hp.
  - intros scene Hscene.
    destruct (addVTUToScene_Returns _ _ _ Hscene)
      as (pts & triangles & scalarTag & _ & _ & _ & ->).
    split; reflexivity.
Qed.

Lemma returned_scene_is_complete_witness :
  exists scene,
    addVTUToScene twoFieldDocument {| scalarField := Some "p"%string |}
      = Returns scene
    /\ complete twoFieldDocument {| scalarField := Some "p"%string |}.
Proof.
  eexists. split.
  - reflexivity.
  - exact (proj1 (returned_scene_is_complete twoFieldDocument
                    {| scalarField := Some "p"%string |})
             eq_refl _ eq_refl).
Defined.

Lemma splitSpaces_not_nil (s token : string) (sep : bool) :
  Js.splitSpaces s token sep <> [].
Proof.
  revert token sep. induction s as [|c s IH]; intros token sep; cbn.
  - discriminate.
  - destruct (Js.isSpace c); [destruct sep|]; try apply IH. discriminate.
Qed.

Lemma numbers_not_nil (text : string) : Js.numbers text <> [].
Proof.
  unfold Js.numbers, Js.split. intros H. apply map_eq_nil in H.
  now apply splitSpaces_not_nil in H.
Qed.

Lemma min2_Fin (p q : Q) :
  exists m, Js.min2 (Js.Fin p) (Js.Fin q) = Js.Fin m
            /\ (m = p \/ m = q) /\ (m <= p)%Q /\ (m <= q)%Q.
Proof.
  unfold Js.min2, Js.compare.
  destruct (Qcompare_spec p q) as [H|H|H].
  - exists p. repeat split; auto; [apply Qle_refl | rewrite H; apply Qle_refl].
  - exists p. repeat split; auto; [apply Qle_refl | now apply Qlt_le_weak].
  - exists q. repeat split; auto; [now apply Qlt_le_weak | apply Qle_refl].
Qed.

Lemma max2_Fin (p q : Q) :
  exists m, Js.max2 (Js.Fin p) (Js.Fin q) = Js.Fin m
            /\ (m = p \/ m = q) /\ (p <= m)%Q /\ (q <= m)%Q.
Proof.
  unfold Js.max2, Js.compare.
  destruct (Qcompare_spec p q) as [H|H|H].
  - exists p. repeat split; auto; [apply Qle_refl | rewrite H; apply Qle_refl].
  - exists q. repeat split; auto; [now apply Qlt_le_weak | apply Qle_refl].
  - exists p. repeat split; auto; [apply Qle_refl | now apply Qlt_le_weak].
Qed.

Lemma fold_min2_Fin (xs : list Js.number) (a : Q) :
  forallb finite xs = true ->
  exists m, fold_left Js.min2 xs (Js.Fin a) = Js.Fin m
            /\ (m = a \/ In (Js.Fin m) xs)
            /\ (m <= a)%Q
            /\ forall q, In (Js.Fin q) xs -> (m <= q)%Q.
Proof.
  revert a. induction xs as [|[| | |p] xs IH]; intros a Hfin;
    try discriminate Hfin.
  - exists a. repeat split; auto; [apply Qle_refl | intros q []].
  - cbn [fold_left].
    destruct (min2_Fin a p) as (b & -> & Hb & Hba & Hbp).
    destruct (IH b Hfin) as (m & -> & Hm & Hmb & Hall).
    exists m. split; [reflexivity|]. split; [|split].
    + destruct Hm as [-> | Hm]; [|now right; right].
      destruct Hb as [-> | ->]; [now left | now right; left].
    + now apply Qle_trans with b.
    + intros q [[= <-] | Hq]; [now apply Qle_trans with b | now apply Hall].
Qed.

Lemma fold_max2_Fin (xs : list Js.number) (a : Q) :
  forallb finite xs = true ->
  exists m, fold_left Js.max2 xs (Js.Fin a) = Js.Fin m
            /\ (m = a \/ In (Js.Fin m) xs)
            /\ (a <= m)%Q
            /\ forall q, In (Js.Fin q) xs -> (q <= m)%Q.
Proof.
  revert a. induction xs as [|[| | |p] xs IH]; intros a Hfin;
    try discriminate Hfin.
  - exists a. repeat split; auto; [apply Qle_refl | intros q []].
  - cbn [fold_left].
    destruct (max2_Fin a p) as (b & -> & Hb & Hab & Hpb).
    destruct (IH b Hfin) as (m & -> & Hm & Hbm & Hall).
    exists m. split; [reflexivity|]. split; [|split].
    + destruct Hm as [-> | Hm]; [|now right; right].
      destruct Hb as [-> | ->]; [now left | now right; left].
    + now apply Qle_trans with b.
    + intros q [[= <-] | Hq]; [now apply Qle_trans with b | now apply Hall].
Qed.

(** The least and the greatest of finite values, at least one. *)
Lemma Math_min_max_finite (xs : list Js.number) :
  xs <> [] -> forallb finite xs = true ->
  exists lo hi,
    Js.Math_min xs = Js.Fin lo /\ Js.Math_max xs = Js.Fin hi
    /\ In (Js.Fin lo) xs /\ In (Js.Fin hi) xs
    /\ forall q, In (Js.Fin q) xs -> (lo <= q <= hi)%Q.
Proof.
  destruct xs as [|[| | |p] xs]; try easy. intros _ Hfin.
  unfold Js.Math_min, Js.Math_max. cbn [fold_left].
  change (Js.min2 Js.Infinity (Js.Fin p)) with (Js.Fin p).
  change (Js.max2 Js.NegInfinity (Js.Fin p)) with (Js.Fin p).
  destruct (fold_min2_Fin xs p Hfin) as (lo & -> & Hlo & Hlop & Hlos).
  destruct (fold_max2_Fin xs p Hfin) as (hi & -> & Hhi & Hphi & Hhis).
  exists lo, hi. split; [reflexivity|]. split; [reflexivity|].
  split; [|split].
  - destruct Hlo as [-> | Hlo]; [now left | now right].
  - destruct Hhi as [-> | Hhi]; [now left | now right].
  - intros q [[= <-] | Hq]; split; auto.
Qed.

(** X9. In a returned scene the chosen field has at least one value, and the
    scalar range of the mapper is (Math.min, Math.max) of its values; when
    the values are all finite, both ends are values of the field, the first
    is at most the second, and every value lies between them. *)
Theorem scene_range_spans_the_field :
  forall (xmlDoc : XMLDocument) (options : Options) (scene : Scene),
    addVTUToScene xmlDoc options = Returns scene ->
    exists array,
      scalars (polyData scene) = Some array
      /\ values array <> []
      /\ scalarRange (actor scene)
         = (Js.Math_min (values array), Js.Math_max (values array))
      /\ (forallb finite (values array) = true ->
          exists lo hi,
            scalarRange (actor scene) = (Js.Fin lo, Js.Fin hi)
            /\ In (Js.Fin lo) (values array)
            /\ In (Js.Fin hi) (values array)
            /\ (lo <= hi)%Q
            /\ forall q, In (Js.Fin q) (values array) -> (lo <= q <= hi)%Q).
Proof.
  intros xmlDoc options scene Hscene.
  destruct (addVTUToScene_Returns _ _ _ Hscene)
    as (pts & triangles & scalarTag & _ & _ & _ & ->).
  eexists. split; [reflexivity|]. cbn [values].
  split; [apply numbers_not_nil|]. split; [reflexivity|].
  intros Hfin.
  destruct (Math_min_max_finite _ (numbers_not_nil (textContent scalarTag)) Hfin)
    as (lo & hi & Hmin & Hmax & Hlo & Hhi & Hall).
  exists lo, hi. cbn [actor applyColorMap scalarRange fst snd].
  rewrite Hmin, Hmax. repeat split; auto; try apply Hall; auto.
Qed.

Lemma scene_range_spans_the_field_witness :
  exists scene,
    addVTUToScene twoFieldDocument {| scalarField := None |} = Returns scene
    /\ exists array,
         scalars (polyData scene) = Some array
         /\ values array <> []
         /\ scalarRange (actor scene)
            = (Js.Math_min (values array), Js.Math_max (values array))
         /\ (forallb finite (values array) = true ->
             exists lo hi,
               scalarRange (actor scene) = (Js.Fin lo, Js.Fin hi)
               /\ In (Js.Fin lo) (values array)
               /\ In (Js.Fin hi) (values array)
               /\ (lo <= hi)%Q
               /\ forall q, In (Js.Fin q) (values array) -> (lo <= q <= hi)%Q).
Proof.
  eexists. split.
  - reflexivity.
  - exact (scene_range_spans_the_field twoFieldDocument
             {| scalarField := None |} _ eq_refl).
Defined.

Example two_field_range :
  match addVTUToScene twoFieldDocument {| scalarField := None |} with
  | Returns scene => Some (scalarRange (actor scene))
  | _ => None
  end = Some (Js.Fin 1, Js.Fin 4).
Proof. reflexivity. Qed.

Lemma strictEq_lit_Fin (e m : Q) :
  (e == m)%Q -> Js.strictEq (Js.lit e) (Js.Fin m) = true.
Proof.
  intros H. unfold Js.strictEq, Js.lit, Js.compare.
  assert (Hred : (Qred e == m)%Q) by now rewrite Qred_correct.
  apply Qeq_alt in Hred. now rewrite Hred.
Qed.

Lemma strictEq_Fin_Fin (e m : Q) :
  (e == m)%Q -> Js.strictEq (Js.Fin e) (Js.Fin m) = true.
Proof.
  intros H. unfold Js.strictEq, Js.compare. apply Qeq_alt in H. now rewrite H.
Qed.

(** X10. For a range whose two ends are equal, as a constant field gives
    it, [applyColorMap] still makes nine calls of [addRGBPoint], and all
    nine are at the same scalar value, so the table is not increasing. *)
Theorem constant_range_one_scalar :
  forall (mapper : Mapper) (min max : Q),
    (min == max)%Q ->
    let lut := lookupTable (applyColorMap mapper (Js.Fin min, Js.Fin max)) in
    length lut = 9
    /\ Forall (fun p => Js.strictEq (x p) (Js.Fin min) = true) lut
    /\ ~ increasing (map x lut).
Proof.
  intros mapper min max Heq lut. subst lut.
  unfold applyColorMap. cbn [lookupTable fst snd].
  rewrite (stop_eq min max 0.125 (1 # 8)), (stop_eq min max 0.25 (2 # 8)),
    (stop_eq min max 0.375 (3 # 8)), (stop_eq min max 0.5 (4 # 8)),
    (stop_eq min max 0.625 (5 # 8)), (stop_eq min max 0.75 (6 # 8)),
    (stop_eq min max 0.875 (7 # 8)) by reflexivity.
  split; [reflexivity|]. split.
  - repeat (apply Forall_cons;
            [cbn [x rgbPoint];
             first [apply strictEq_lit_Fin; rewrite Heq; ring
                   | apply strictEq_Fin_Fin; now rewrite ?Heq]|]).
    apply Forall_nil.
  - cbn [map x rgbPoint increasing]. intros [Hlt _].
    unfold Js.lt, Js.lit, Js.compare in Hlt.
    assert (Hsame : (min == Qred (min + (max - min) * (1 # 8)))%Q)
      by (rewrite Qred_correct, Heq; ring).
    apply Qeq_alt in Hsame. rewrite Hsame in Hlt. discriminate Hlt.
Qed.

Lemma constant_range_one_scalar_witness :
  ~ increasing
      (map x (lookupTable (applyColorMap newMapper (Js.Fin 7, Js.Fin 7)))).
Proof.
  exact (proj2 (proj2
           (constant_range_one_scalar newMapper 7 7 (Qeq_refl 7)))).
Defined.

(** ** Further properties of [enableThreshold] *)

(** What a returning call installs. *)
Lemma enableThreshold_Returns (mapper : Mapper) (polyData : PolyData)
    (array : DataArray) (thresholdValue : Js.number) :
  inputData mapper = Some polyData ->
  scalars polyData = Some array ->
  enableThreshold mapper thresholdValue
    = Returns (setInputData mapper
                 (setPoints newPolyData
                    (passingCoordinates (values array) thresholdValue
                       (points polyData)))).
Proof.
  intros Hin Hsc. unfold enableThreshold. rewrite Hin, Hsc.
  now rewrite filter_is_passingCoordinates.
Qed.

(** X11. On the actor of a scene that [addVTUToScene] returned, the first
    [enableThreshold] returns, whatever the threshold: the mapper gets the
    coordinates of the points of the mesh whose value of the chosen field
    is above the threshold, it keeps its lookup table and its scalar
    range, and a further call throws a [TypeError]. *)
Theorem scene_can_be_thresholded_once :
  forall (xmlDoc : XMLDocument) (options : Options) (scene : Scene)
         (thresholdValue : Js.number),
    addVTUToScene xmlDoc options = Returns scene ->
    exists array mapper',
      scalars (polyData scene) = Some array
      /\ enableThreshold (actor scene) thresholdValue = Returns mapper'
      /\ option_map points (inputData mapper')
         = Some (passingCoordinates (values array) thresholdValue
                   (points (polyData scene)))
      /\ lookupTable mapper' = lookupTable (actor scene)
      /\ scalarRange mapper' = scalarRange (actor scene)
      /\ forall again, enableThreshold mapper' again = Throws TypeError.
Proof.
  intros xmlDoc options scene t Hscene.
  destruct (addVTUToScene_Returns _ _ _ Hscene)
    as (pts & triangles & scalarTag & _ & _ & _ & ->).
  eexists. eexists. split; [reflexivity|].
  split; [now apply enableThreshold_Returns|]. repeat split.
Qed.

Lemma scene_can_be_thresholded_once_witness :
  exists scene,
    addVTUToScene twoFieldDocument {| scalarField := None |} = Returns scene
    /\ exists array mapper',
         scalars (polyData scene) = Some array
         /\ enableThreshold (actor scene) (Js.ofZ 2) = Returns mapper'
         /\ option_map points (inputData mapper')
            = Some (passingCoordinates (values array) (Js.ofZ 2)
                      (points (polyData scene)))
         /\ lookupTable mapper' = lookupTable (actor scene)
         /\ scalarRange mapper' = scalarRange (actor scene)
         /\ forall again, enableThreshold mapper' again = Throws TypeError.
Proof.
  eexists. split.
  - reflexivity.
  - exact (scene_can_be_thresholded_once twoFieldDocument
             {| scalarField := None |} _ (Js.ofZ 2) eq_refl).
Defined.

Example two_field_threshold :
  match addVTUToScene twoFieldDocument {| scalarField := None |} with
  | Returns scene =>
      match enableThreshold (actor scene) (Js.ofZ 2) with
      | Returns mapper' => option_map points (inputData mapper')
      | _ => None
      end
  | _ => None
  end = Some (map Js.ofZ [0; 0; 0;  1; 1; 0]%Z).
Proof. reflexivity. Qed.

(** [t1 <= t2 < v] gives [t1 < v]. *)
Lemma gt_above (v t1 t2 : Js.number) :
  Js.ge t2 t1 = true -> Js.gt v t2 = true -> Js.gt v t1 = true.
Proof.
  unfold Js.ge, Js.gt, Js.lt.
  destruct v as [| | |p], t1 as [| | |q1], t2 as [| | |q2]; cbn;
    try discriminate; try reflexivity.
  destruct (Qcompare_spec q2 q1) as [H21|H21|H21]; try discriminate;
    intros _;
    destruct (Qcompare_spec q2 p) as [H2p|H2p|H2p]; try discriminate;
    intros _;
    destruct (Qcompare_spec q1 p) as [H1p|H1p|H1p]; try reflexivity;
    exfalso; lra.
Qed.

Lemma passingCoordinates_length_mono {A : Type} (s : Js.Float32Array)
    (t1 t2 : Js.number) (pts : list A) :
  Js.ge t2 t1 = true ->
  length (passingCoordinates s t2 pts) <= length (passingCoordinates s t1 pts).
Proof.
  intros Hge. revert pts. induction s as [|v s IH]; intros pts.
  - reflexivity.
  - rewrite !passingCoordinates_cons, !length_app.
    specialize (IH (skipn 3 pts)).
    destruct (Js.gt v t2) eqn:H2.
    + rewrite (gt_above _ _ _ Hge H2). lia.
    + destruct (Js.gt v t1); cbn [length]; lia.
Qed.

(** X12. A higher threshold never keeps more: with [t1 <= t2], every point
    that passes at [t2] passes at [t1], and the point buffer that
    [enableThreshold] installs at [t2] is not longer than the one it
    installs at [t1]. *)
Theorem higher_threshold_keeps_less :
  forall (mapper : Mapper) (polyData : PolyData) (array : DataArray)
         (t1 t2 : Js.number),
    inputData mapper = Some polyData ->
    scalars polyData = Some array ->
    Js.ge t2 t1 = true ->
    (forall i, passes (values array) t2 i = true ->
               passes (values array) t1 i = true)
    /\ exists m1 m2 p1 p2,
         enableThreshold mapper t1 = Returns m1
         /\ enableThreshold mapper t2 = Returns m2
         /\ option_map points (inputData m1) = Some p1
         /\ option_map points (inputData m2) = Some p2
         /\ length p2 <= length p1.
Proof.
  intros mapper polyData array t1 t2 Hin Hsc Hge. split.
  - intros i. unfold passes. destruct (nth_error (values array) i) as [v|].
    + now apply gt_above.
    + discriminate.
  - rewrite (enableThreshold_Returns _ _ _ t1 Hin Hsc),
      (enableThreshold_Returns _ _ _ t2 Hin Hsc).
    do 4 eexists. split; [reflexivity|]. split; [reflexivity|].
    cbn. split; [reflexivity|]. split; [reflexivity|].
    now apply passingCoordinates_length_mono.
Qed.

Lemma higher_threshold_keeps_less_witness :
  exists m1 m2 p1 p2,
    enableThreshold quadMapper (Js.ofZ 1) = Returns m1
    /\ enableThreshold quadMapper (Js.ofZ 3) = Returns m2
    /\ option_map points (inputData m1) = Some p1
    /\ option_map points (inputData m2) = Some p2
    /\ length p2 <= length p1.
Proof.
  exact (proj2 (higher_threshold_keeps_less quadMapper _ _
                  (Js.ofZ 1) (Js.ofZ 3) eq_refl eq_refl eq_refl)).
Defined.

Lemma passingCoordinates_length {A : Type} (s : Js.Float32Array)
    (t : Js.number) (pts : list A) :
  length (passingCoordinates s t pts) <= length pts
  /\ (3 * length s <= length pts ->
      length (passingCoordinates s t pts)
        = 3 * length (filter (fun v => Js.gt v t) s)).
Proof.
  revert pts. induction s as [|v s IH]; intros pts.
  - split; [cbn; lia | reflexivity].
  - rewrite passingCoordinates_cons, length_app.
    destruct (IH (skipn 3 pts)) as [Hle Heq].
    rewrite length_skipn in Hle, Heq. cbn [length filter]. split.
    + destruct (Js.gt v t); cbn [length]; rewrite ?length_firstn; lia.
    + intros Hlen.
      destruct (Js.gt v t); cbn [length]; rewrite ?length_firstn, Heq; lia.
Qed.

(** X13. The point buffer that [enableThreshold] installs is never longer
    than the one it filters; when every point with a scalar value has its
    three coordinates in the buffer, its length is three times the number
    of scalar values above the threshold. *)
Theorem filtered_length :
  forall (mapper : Mapper) (polyData : PolyData) (array : DataArray)
         (thresholdValue : Js.number),
    inputData mapper = Some polyData ->
    scalars polyData = Some array ->
    exists mapper' filtered,
      enableThreshold mapper thresholdValue = Returns mapper'
      /\ option_map points (inputData mapper') = Some filtered
      /\ length filtered <= length (points polyData)
      /\ (3 * length (values array) <= length (points polyData) ->
          length filtered
            = 3 * length (filter (fun v => Js.gt v thresholdValue)
                            (values array))).
Proof.
  intros mapper polyData array t Hin Hsc.
  rewrite (enableThreshold_Returns _ _ _ t Hin Hsc).
  do 2 eexists. split; [reflexivity|]. cbn. split; [reflexivity|].
  apply passingCoordinates_length.
Qed.

Lemma filtered_length_witness :
  exists mapper' filtered,
    enableThreshold quadMapper (Js.ofZ 2) = Returns mapper'
    /\ option_map points (inputData mapper') = Some filtered
    /\ length filtered <= 12
    /\ (3 * 4 <= 12 -> length filtered = 3 * 2).
Proof.
  exact (filtered_length quadMapper _ _ (Js.ofZ 2) eq_refl eq_refl).
Defined.

(** ** Properties of [setRepresentation] *)

Lemma setRepresentation_keeps_edges (property : Property) (type : string) :
  edgeVisibility property = true ->
  edgeVisibility (setRepresentation property type) = true.
Proof.
  intros H. unfold setRepresentation.
  repeat match goal with
         | |- context [if ?c then _ else _] => destruct c
         end; cbn; auto.
Qed.

(** X14. [setRepresentation] never hides the edges: once they are visible
    they stay so through any further calls, so after "surface_with_edges"
    the type "surface" gives the same property as "surface_with_edges"
    again; and a type that is none of the four strings changes nothing. *)
Theorem edges_are_never_hidden :
  forall (property : Property) (types : list string),
    (edgeVisibility property = true ->
     edgeVisibility (fold_left setRepresentation types property) = true)
    /\ edgeVisibility
         (fold_left setRepresentation types
            (setRepresentation property "surface_with_edges")) = true
    /\ setRepresentation (setRepresentation property "surface_with_edges")
         "surface"
       = setRepresentation property "surface_with_edges"
    /\ (forall type,
          ~ In type ["points"; "wireframe"; "surface"; "surface_with_edges"]%string ->
          setRepresentation property type = property).
Proof.
  intros property types.
  assert (Hfold : forall p, edgeVisibility p = true ->
            edgeVisibility (fold_left setRepresentation types p) = true).
  { induction types as [|type rest IH]; intros p Hp; cbn; [exact Hp|].
    apply IH. now apply setRepresentation_keeps_edges. }
  split; [apply Hfold|]. split; [now apply Hfold|]. split; [reflexivity|].
  intros type Hnot. unfold setRepresentation.
  repeat match goal with
         | |- context [if String.eqb type ?s then _ else _] =>
             destruct (String.eqb_spec type s) as [->|_];
             [exfalso; apply Hnot; cbn; tauto|]
         end.
  reflexivity.
Qed.

Lemma edges_are_never_hidden_witness :
  edgeVisibility
    (fold_left setRepresentation ["surface"; "points"; "wireframe"]%string
       {| representation := 2; edgeVisibility := true |}) = true.
Proof.
  exact (proj1 (edges_are_never_hidden
                  {| representation := 2; edgeVisibility := true |}
                  ["surface"; "points"; "wireframe"]%string) eq_refl).
Defined.

(** ** The indices of the returned triangles *)

Lemma cornerOf_at (window : list Js.number) (k : nat) :
  cornerOf window (at_ window k).
Proof.
  unfold cornerOf, at_. destruct (nth_error window k) as [n|] eqn:E.
  - right. exists n. split; [reflexivity|]. eapply nth_error_In, E.
  - now left.
Qed.

Lemma cornerOf_corner (window : list Js.number) (face : list nat) (k : nat) :
  cornerOf window (corner window face k).
Proof.
  unfold corner. destruct (nth_error face k).
  - apply cornerOf_at.
  - now left.
Qed.

Lemma cornersOf_flat_map {X : Type} (window : list Js.number)
    (f : X -> list Js.Value) (l : list X) :
  (forall v, exists ts, f v = encode ts /\ cornersOf window ts) ->
  exists ts, flat_map f l = encode ts /\ cornersOf window ts.
Proof.
  intros Hf. induction l as [|v l (ts & IH & Hts)]; cbn.
  - exists []. split; [reflexivity | constructor].
  - destruct (Hf v) as (ts' & Hv & Hts'). exists (ts' ++ ts). split.
    + now rewrite Hv, IH, encode_app.
    + apply Forall_app. now split.
Qed.

(** Goes through the corners of a list of triangles. *)
Ltac each_corner :=
  unfold cornersOf, diagonalSplit;
  repeat (apply Forall_cons;
          [repeat split; first [apply cornerOf_corner | apply cornerOf_at]|]);
  apply Forall_nil.

Lemma cornersOf_pushQuadFace (window : list Js.number) (face : list nat) :
  exists ts, pushQuadFace window face = encode ts /\ cornersOf window ts.
Proof.
  exists (diagonalSplit (corner window face 0) (corner window face 1)
            (corner window face 2) (corner window face 3)).
  split; [reflexivity|]. each_corner.
Qed.

Lemma cornersOf_pushFace (window : list Js.number) (face : list nat) :
  exists ts, pushFace window face = encode ts /\ cornersOf window ts.
Proof.
  unfold pushFace. destruct (length face =? 3) eqn:Hlen.
  - destruct face as [|p [|q [|r [|? ?]]]]; try discriminate Hlen.
    exists [ (at_ window p, at_ window q, at_ window r) ].
    split; [reflexivity|]. each_corner.
  - apply cornersOf_pushQuadFace.
Qed.

Lemma cornersOf_pushCell (window : list Js.number)
    (cellType numPoints : Js.number) (pushed : list Js.Value) :
  (Js.strictEq cellType VTK_TRIANGLE = true -> length window = 3) ->
  pushCell window cellType numPoints = Returns pushed ->
  exists ts, pushed = encode ts /\ cornersOf window ts.
Proof.
  intros Hthree. unfold pushCell.
  destruct (Js.strictEq cellType VTK_TRIANGLE).
  { destruct window as [|p [|q [|r [|? ?]]]];
      try (specialize (Hthree eq_refl); discriminate Hthree).
    intros [= <-]. exists [ (Some p, Some q, Some r) ].
    split; [reflexivity|].
    apply Forall_cons; [|apply Forall_nil].
    repeat split; right; eexists; (split; [reflexivity|]); cbn; tauto. }
  destruct (Js.strictEq cellType VTK_QUAD).
  { intros [= <-].
    exists (diagonalSplit (at_ window 0) (at_ window 1)
              (at_ window 2) (at_ window 3)).
    split; [reflexivity|]. each_corner. }
  destruct (Js.strictEq cellType VTK_TETRA).
  { intros [= <-].
    exists [ (at_ window 0, at_ window 1, at_ window 2);
             (at_ window 0, at_ window 2, at_ window 3);
             (at_ window 0, at_ window 3, at_ window 1);
             (at_ window 1, at_ window 3, at_ window 2) ].
    split; [reflexivity|]. each_corner. }
  destruct (Js.strictEq cellType VTK_HEXAHEDRON).
  { intros H. apply Returns_inj in H. subst pushed.
    apply cornersOf_flat_map, cornersOf_pushQuadFace. }
  destruct (Js.strictEq cellType VTK_WEDGE).
  { intros H. apply Returns_inj in H. subst pushed.
    apply cornersOf_flat_map, cornersOf_pushFace. }
  destruct (Js.strictEq cellType VTK_PYRAMID).
  { intros H. apply Returns_inj in H. subst pushed.
    apply cornersOf_flat_map, cornersOf_pushFace. }
  destruct (Js.ge numPoints (Js.ofZ 3)).
  - destruct (Js.forCount _) as [n|]; [|discriminate].
    intros H. apply Returns_inj in H. subst pushed.
    apply cornersOf_flat_map. intros j.
    exists [ (at_ window 0, at_ window (j + 1), at_ window (j + 2)) ].
    split; [reflexivity|]. each_corner.
  - intros [= <-]. exists []. split; [reflexivity | constructor].
Qed.

Lemma cornersOf_slice (array : list Js.number) (start end_ : Js.Value)
    (ts : list (Js.Value * Js.Value * Js.Value)) :
  cornersOf (Js.slice array start end_) ts -> cornersOf array ts.
Proof.
  unfold cornersOf. apply Forall_impl. intros [[p q] r] (Hp & Hq & Hr).
  assert (Hin : forall v, cornerOf (Js.slice array start end_) v ->
                          cornerOf array v).
  { intros v [H | (n & H & Hn)]; [now left|].
    right. exists n. split; [exact H|]. eapply In_slice, Hn. }
  auto.
Qed.

Lemma cornersOf_forCells (connectivityArray offsetsArray typesLeft : list Js.number)
    (i : nat) (st st' : LoopState) :
  threePointTriangles connectivityArray offsetsArray typesLeft i
    (previousOffset st) = true ->
  (exists ts, cells st = encode ts /\ cornersOf connectivityArray ts) ->
  forCells connectivityArray offsetsArray typesLeft i st = Returns st' ->
  exists ts, cells st' = encode ts /\ cornersOf connectivityArray ts.
Proof.
  revert i st. induction typesLeft as [|cellType rest IH]; intros i st.
  - intros _ Hst [= <-]. exact Hst.
  - cbn [threePointTriangles forCells]. intros Hthree (ts & Hst & Hts).
    apply andb_prop in Hthree. destruct Hthree as [Hcell Hrest].
    unfold loopBody.
    destruct (pushCell _ cellType _) as [pushed| |] eqn:Hpush;
      cbn [bind]; try discriminate.
    apply (IH (S i)); cbn [previousOffset cells]; [exact Hrest|].
    assert (Hwin : Js.strictEq cellType VTK_TRIANGLE = true ->
                   length (Js.slice connectivityArray (previousOffset st)
                             (nth_error offsetsArray i)) = 3).
    { intros Htag. rewrite Htag in Hcell. cbn in Hcell.
      now apply Nat.eqb_eq. }
    destruct (cornersOf_pushCell _ _ _ _ Hwin Hpush) as (ts' & -> & Hts').
    exists (ts ++ ts'). split; [now rewrite Hst, encode_app|].
    apply Forall_app. split; [exact Hts|].
    eapply cornersOf_slice, Hts'.
Qed.

Lemma ToUint32_ofZ (z : Z) :
  (0 <= z < 2 ^ 32)%Z -> Js.ToUint32 (Js.ofZ z) = z.
Proof.
  intros Hz. unfold Js.ToUint32, Js.ofZ. rewrite truncate_inject_Z.
  now apply Z.mod_small.
Qed.

(** X15. When every triangle cell has a window of three points and the
    connectivity array holds whole numbers in [0 .. N), with N at least 1
    and at most 2^32, the buffer that [extractCells] returns is a sequence
    of triangles all of whose indices are in [0 .. N): no triangle refers
    to a point that is not there. *)
Theorem returned_indices_in_range :
  forall (xmlDoc : XMLDocument) (connectivityTag offsetsTag typesTag : Element)
         (buffer : Js.Uint32Array) (N : Z),
    querySelector xmlDoc (CellsDataArray "connectivity") = Some connectivityTag ->
    querySelector xmlDoc (CellsDataArray "offsets") = Some offsetsTag ->
    querySelector xmlDoc (CellsDataArray "types") = Some typesTag ->
    threePointTriangles (Js.numbers (textContent connectivityTag))
      (Js.numbers (textContent offsetsTag)) (Js.numbers (textContent typesTag))
      0 (Some (Js.ofZ 0)) = true ->
    (0 < N <= 2 ^ 32)%Z ->
    (forall n, In n (Js.numbers (textContent connectivityTag)) ->
               exists z, n = Js.ofZ z /\ (0 <= z < N)%Z) ->
    extractCells xmlDoc = Returns buffer ->
    exists triangles : list (Z * Z * Z),
      buffer = flat_map (fun '(a, b, c) => [3%Z; a; b; c]) triangles
      /\ Forall (fun '(a, b, c) =>
                   (0 <= a < N)%Z /\ (0 <= b < N)%Z /\ (0 <= c < N)%Z)
                triangles.
Proof.
  intros xmlDoc c o t buffer N Hc Ho Ht Hthree HN Hconn. unfold extractCells.
  rewrite Hc, Ho, Ht.
  destruct (forCells _ _ _ 0 _) as [st'| |] eqn:Hloop; cbn [bind];
    try discriminate.
  intros H. apply Returns_inj in H. subst buffer.
  destruct (cornersOf_forCells _ _ _ 0 start st' Hthree
              (ex_intro _ [] (conj eq_refl (Forall_nil _))) Hloop)
    as (ts & -> & Hts).
  assert (Hcorner : forall v, cornerOf (Js.numbers (textContent c)) v ->
            (0 <= Js.ToUint32 (Js.ToNumber v) < N)%Z).
  { intros v [-> | (n & -> & Hn)]; [cbn; lia|].
    destruct (Hconn n Hn) as (z & -> & Hz). cbn [Js.ToNumber].
    rewrite ToUint32_ofZ; lia. }
  exists (map (fun '(p, q, r) =>
                 (Js.ToUint32 (Js.ToNumber p), Js.ToUint32 (Js.ToNumber q),
                  Js.ToUint32 (Js.ToNumber r))) ts).
  clear Hloop Hthree. unfold cornersOf in Hts.
  induction ts as [|[[p q] r] ts IH].
  - split; [reflexivity | constructor].
  - apply Forall_cons_iff in Hts. destruct Hts as [(Hp & Hq & Hr) Hts].
    destruct (IH Hts) as [IHbuf IHall]. split.
    + unfold encode, Js.newUint32Array in *. cbn [flat_map map app].
      now rewrite IHbuf.
    + cbn [map]. constructor; [|exact IHall]. auto.
Qed.

Lemma returned_indices_in_range_witness :
  exists triangles : list (Z * Z * Z),
    [3; 0; 1; 2;  3; 0; 2; 3]%Z
      = flat_map (fun '(a, b, c) => [3%Z; a; b; c]) triangles
    /\ Forall (fun '(a, b, c) =>
                 (0 <= a < 4)%Z /\ (0 <= b < 4)%Z /\ (0 <= c < 4)%Z)
              triangles.
Proof.
  refine (returned_indices_in_range twoFieldDocument _ _ _ _ 4%Z
            eq_refl eq_refl eq_refl eq_refl _ _ eq_refl).
  - lia.
  - intros n Hn. vm_compute in Hn.
    repeat (destruct Hn as [<- | Hn];
            [eexists; split; [reflexivity | lia]|]).
    destruct Hn.
Defined.
